(** * square/lib/update.js: the third-party bundle updater

    A shallow embedding of [lib/update.js] and the properties of it that
    the specification states.

    - JavaScript strings are sequences of UTF-16 code units: [list N].
    - The three regular expressions of the module ([semver], [sillyver],
      [githubRE]) and the separator of [String.prototype.split] in [req]
      are terms of a small pattern syntax, run by a backtracking matcher
      that follows the ECMAScript matching order (leftmost start, greedy
      quantifiers, alternatives left to right).
    - Callbacks are continuations; a function that may throw returns a
      [result]; the receiver [this] of a method is an explicit argument,
      [None] when the function is called without one (the file is in
      strict mode). *)

From Stdlib Require Import Strings.String Strings.Ascii.
From Stdlib Require Import List NArith ZArith Bool Lia Arith.
Import ListNotations.

Set Implicit Arguments.
Local Open Scope N_scope.
Local Open Scope list_scope.

(** ** Strings *)

Definition jsstring := list N.

(** A literal of the source, as code units. *)
Definition str (s : string) : jsstring :=
  map N_of_ascii (list_ascii_of_string s).

Definition jsstring_eqb (a b : jsstring) : bool :=
  if list_eq_dec N.eq_dec a b then true else false.

Definition in_range (lo hi c : N) : bool := (lo <=? c) && (c <=? hi).

(** [\d] *)
Definition is_digit (c : N) : bool := in_range 48 57 c.

(** [a-zA-Z] *)
Definition is_alpha (c : N) : bool := in_range 97 122 c || in_range 65 90 c.

(** [\w] : [A-Za-z0-9_] *)
Definition is_word (c : N) : bool := is_alpha c || is_digit c || (c =? 95).

(** LineTerminator: LF, CR, LS, PS. *)
Definition is_line_terminator (c : N) : bool :=
  (c =? 10) || (c =? 13) || (c =? 8232) || (c =? 8233).

(** [\s], and what [String.prototype.trim] strips: WhiteSpace and
    LineTerminator, as ECMAScript lists them today (engines of 2012
    counted U+180E as well; nothing below depends on it). *)
Definition is_space (c : N) : bool :=
  in_range 9 13 c || (c =? 32) || (c =? 160) || (c =? 5760)
  || in_range 8192 8202 c || (c =? 8232) || (c =? 8233) || (c =? 8239)
  || (c =? 8287) || (c =? 12288) || (c =? 65279).

Definition trim_left (s : jsstring) : jsstring :=
  (fix go (s : jsstring) : jsstring :=
     match s with
     | a :: s' => if is_space a then go s' else s
     | [] => []
     end) s.

(** [s.trim()] *)
Definition trim (s : jsstring) : jsstring :=
  rev (trim_left (rev (trim_left s))).

(** [s.indexOf(c) !== -1] for a one-character needle. *)
Definition contains_char (c : N) (s : jsstring) : bool :=
  existsb (N.eqb c) s.

(** [parts.join(sep)] *)
Fixpoint join (sep : jsstring) (parts : list jsstring) : jsstring :=
  match parts with
  | [] => []
  | [p] => p
  | p :: rest => p ++ sep ++ join sep rest
  end.

(** ** Regular expressions *)

Module RegExp.

(** The pattern syntax the module's expressions need.  [Cls p] is any
    atom that consumes one code unit: a literal, an escape such as [\d],
    a bracketed class, or the dot. *)
Inductive regex : Type :=
| Eps
| Cls (p : N -> bool)
| Seq (r1 r2 : regex)
| Alt (r1 r2 : regex)
| Star (r : regex)
| Opt (r : regex)
| Group (i : nat) (r : regex).

(** [c] as a literal *)
Definition Chr (c : N) : regex := Cls (N.eqb c).

(** [.] : anything but a line terminator *)
Definition Dot : regex := Cls (fun c => negb (is_line_terminator c)).

(** [r+]; the patterns of this module repeat single atoms only, for
    which [r+] is [r r*]. *)
Definition Plus (r : regex) : regex := Seq r (Star r).

(** A run of literal characters. *)
Fixpoint Lit (s : jsstring) : regex :=
  match s with
  | [] => Eps
  | c :: s' => Seq (Chr c) (Lit s')
  end.

(** Capture [i] is [match[i]]: [None] is [undefined]. *)
Definition caps := list (option jsstring).

Fixpoint set_nth (j : nat) (v : option jsstring) (c : caps) {struct c}
  : caps :=
  match c with
  | [] => []
  | x :: c' =>
      match j with
      | O => v :: c'
      | S j' => x :: set_nth j' v c'
      end
  end.

(** Group [i], counted from 1, is at index [i - 1]. *)
Definition set_cap (i : nat) (w : jsstring) (c : caps) : caps :=
  match i with
  | O => c
  | S j => set_nth j (Some w) c
  end.

Definition cap (c : caps) (i : nat) : option jsstring :=
  nth (pred i) c None.

Fixpoint ngroups (r : regex) : nat :=
  match r with
  | Eps | Cls _ => O
  | Seq r1 r2 | Alt r1 r2 => (ngroups r1 + ngroups r2)%nat
  | Star r1 | Opt r1 => ngroups r1
  | Group _ r1 => S (ngroups r1)
  end.

(** What [r] consumed between the input [s] and the rest [s']. *)
Definition consumed (s s' : jsstring) : jsstring :=
  firstn (length s - length s') s.

Definition shorter (s' s : jsstring) : bool :=
  (length s' <? length s)%nat.

Section Matcher.

Variable R : Type.

Definition cont := jsstring -> caps -> option R.

(** The loop of a greedy star, RepeatMatcher with no upper bound: one
    more iteration of [body] is tried first, an iteration that consumes
    nothing is rejected, and the continuation is tried when no further
    iteration leads to a match.  [n] bounds the iterations. *)
Fixpoint star_iter (body : jsstring -> caps -> cont -> option R) (k : cont)
    (n : nat) (s : jsstring) (c : caps) {struct n} : option R :=
  match n with
  | O => k s c
  | S n' =>
      match body s c (fun s' c' =>
                        if shorter s' s then star_iter body k n' s' c'
                        else None) with
      | Some x => Some x
      | None => k s c
      end
  end.

(** The backtracking matcher, in continuation-passing style: [m r s c k]
    matches [r] at the head of [s] and hands the rest of the input and
    the captures to [k]; the first way of matching on which [k] succeeds
    is the result.  Quantifiers are greedy.  The loop of [Star] gets
    [length s] iterations, which is all it can use, since every
    iteration consumes. *)
Fixpoint m (r : regex) (s : jsstring) (c : caps) (k : cont) {struct r}
  : option R :=
  match r with
  | Eps => k s c
  | Cls p =>
      match s with
      | a :: s' => if p a then k s' c else None
      | [] => None
      end
  | Seq r1 r2 => m r1 s c (fun s' c' => m r2 s' c' k)
  | Alt r1 r2 =>
      match m r1 s c k with
      | Some x => Some x
      | None => m r2 s c k
      end
  | Opt r1 =>
      match m r1 s c (fun s' c' => if shorter s' s then k s' c' else None) with
      | Some x => Some x
      | None => k s c
      end
  | Star r1 => star_iter (m r1) k (length s) s c
  | Group i r1 =>
      m r1 s c (fun s' c' => k s' (set_cap i (consumed s s') c'))
  end.

End Matcher.

(** The continuation at the end of a pattern: the match is found. *)
Definition final : cont (caps * jsstring) := fun s' c' => Some (c', s').

(** A match of [r] that starts exactly at the head of [s]: the captures
    and the rest of the input. *)
Definition match_here (r : regex) (s : jsstring) : option (caps * jsstring) :=
  m r s (repeat None (ngroups r)) final.

(** [r.exec(s)] for a pattern without the global flag: the captures of
    the leftmost match, [None] for [null]. *)
Fixpoint exec (r : regex) (s : jsstring) : option caps :=
  match match_here r s with
  | Some (c', _) => Some c'
  | None =>
      match s with
      | [] => None
      | _ :: s' => exec r s'
      end
  end.

(** [r.test(s)] *)
Definition test (r : regex) (s : jsstring) : bool :=
  match exec r s with Some _ => true | None => false end.

(** [s.split(r)], ES5 15.5.4.14: the pieces between the matches of [r],
    and after each piece every capture of the separator that ended it,
    [None] for a capture that did not take part.  [skip] counts the code
    units of the current separator still to pass, [cur] holds the piece
    being read, reversed.  A separator match that is empty at the last
    split point is no match. *)
Fixpoint split_from (r : regex) (skip : nat) (cur : jsstring) (s : jsstring)
  : list (option jsstring) :=
  match s with
  | [] => [Some (rev cur)]
  | a :: s' =>
      match skip with
      | S n => split_from r n cur s'
      | O =>
          match match_here r s with
          | Some (c, rest) =>
              match (length s - length rest)%nat, cur with
              | O, [] => split_from r O [a] s'
              | O, _ => Some (rev cur) :: c ++ split_from r O [a] s'
              | S n, _ => Some (rev cur) :: c ++ split_from r n [] s'
              end
          | None => split_from r O (a :: cur) s'
          end
      end
  end.

Definition split (r : regex) (s : jsstring) : list (option jsstring) :=
  match s with
  | [] => match match_here r [] with Some _ => [] | None => [Some []] end
  | _ => split_from r O [] s
  end.

End RegExp.

Import RegExp.

(** ** The patterns of the module *)

(** [[v=]] *)
Definition is_v_or_eq (c : N) : bool := (c =? 118) || (c =? 61).

(** [\s*[v=]*\s*], the start of both version patterns. *)
Definition version_prefix (rest : regex) : regex :=
  Seq (Star (Cls is_space))
    (Seq (Star (Cls is_v_or_eq))
       (Seq (Star (Cls is_space)) rest)).

(** [[a-zA-Z-]] *)
Definition is_tag_start (c : N) : bool := is_alpha c || (c =? 45).

(** [[a-zA-Z0-9-\.:]] *)
Definition is_tag_char (c : N) : bool :=
  is_alpha c || is_digit c || (c =? 45) || (c =? 46) || (c =? 58).

(** [[-\s]] *)
Definition is_dash_or_space (c : N) : bool := (c =? 45) || is_space c.

(** [[\w\.\-]] *)
Definition is_github_name (c : N) : bool :=
  is_word c || (c =? 46) || (c =? 45).

(** The tag, as group [i]: one of [[a-zA-Z-]], then any number of
    [[a-zA-Z0-9-\.:]]. *)
Definition tag (i : nat) : regex :=
  Group i (Seq (Cls is_tag_start) (Star (Cls is_tag_char))).

(** The optional build [(-[0-9]+-?)?] and the optional tag. *)
Definition semver_tail : regex :=
  Seq (Opt (Group 4 (Seq (Chr 45)
                       (Seq (Plus (Cls is_digit)) (Opt (Chr 45))))))
      (Opt (tag 5)).

(** [([0-9]+)\.([0-9]+)\.([0-9]+)] and the tail. *)
Definition semver_numbers : regex :=
  Seq (Group 1 (Plus (Cls is_digit)))
    (Seq (Seq (Chr 46) (Group 2 (Plus (Cls is_digit))))
       (Seq (Seq (Chr 46) (Group 3 (Plus (Cls is_digit))))
          semver_tail)).

(** [semver]: major, minor, patch, build, tag. *)
Definition semver : regex := version_prefix semver_numbers.

(** [(\d)\.([\d][-\s]?)] and the tag, which is optional inside an
    optional group that does not capture. *)
Definition sillyver_numbers : regex :=
  Seq (Group 1 (Cls is_digit))
    (Seq (Seq (Chr 46)
            (Group 2 (Seq (Cls is_digit) (Opt (Cls is_dash_or_space)))))
       (Opt (Opt (tag 3)))).

(** [sillyver]: major, minor, silly. *)
Definition sillyver : regex := version_prefix sillyver_numbers.

(** [githubRE]; the dot of [github.com] is not escaped. *)
Definition githubRE : regex :=
  Seq (Lit (str "github")) (Seq Dot (Seq (Lit (str "com"))
  (Seq (Chr 47) (Seq (Group 1 (Plus (Cls is_github_name)))
  (Seq (Chr 47) (Seq (Group 2 (Plus (Cls is_github_name)))
  (Seq (Chr 47) (Seq (Lit (str "blob"))
  (Seq (Group 3 (Seq (Chr 47) (Plus (Cls is_github_name))))
  (Seq (Chr 47) (Group 4 (Star Dot)))))))))))).

(** The separator of [req]: [(\r\n)|\r|\n]. *)
Definition line_separator : regex :=
  Alt (Group 1 (Seq (Chr 13) (Chr 10))) (Alt (Chr 13) (Chr 10)).

(** ** Values, errors and results *)

Inductive error_name := Error | TypeError | SyntaxError.

(** What a callback receives as [err], or what is thrown: an error
    object, or (from a collaborator that reports several failures at
    once) an array of them.  Only an array has a [forEach]. *)
Inductive error :=
| ErrorObject (name : error_name) (message : jsstring)
| ErrorArray (items : list (error_name * jsstring)).

Definition new_Error (message : jsstring) : error := ErrorObject Error message.

(** The [TypeError] of reading a property of [undefined] or [null], or of
    calling what is not a function. *)
Definition type_error (what : string) : error :=
  ErrorObject TypeError (str what).

Inductive result (A : Type) :=
| Ok (a : A)
| Throw (e : error).

Arguments Ok {A} a.
Arguments Throw {A} e.

Definition bind {A B : Type} (x : result A) (f : A -> result B) : result B :=
  match x with
  | Ok a => f a
  | Throw e => Throw e
  end.

Notation "'let*' x ':=' e 'in' k" := (bind e (fun x => k))
  (at level 10, x name, e at level 100, k at level 200).

(** The values a version can be in this module: [undefined], a string,
    or (in [req], before the first line is scanned) the function
    [Update.prototype.version] itself. *)
Inductive value :=
| VUndefined
| VString (s : jsstring)
| VVersionFunction.

(** [!!v] *)
Definition truthy (v : value) : bool :=
  match v with
  | VUndefined => false
  | VString [] => false
  | VString _ => true
  | VVersionFunction => true
  end.

(** [v === w] *)
Definition strict_equal (v w : value) : bool :=
  match v, w with
  | VUndefined, VUndefined => true
  | VString a, VString b => jsstring_eqb a b
  | VVersionFunction, VVersionFunction => true
  | _, _ => false
  end.

Definition value_of_option (o : option jsstring) : value :=
  match o with
  | Some s => VString s
  | None => VUndefined
  end.

(** ToString of a string or [undefined]. *)
Definition to_string (o : option jsstring) : jsstring :=
  match o with
  | Some s => s
  | None => str "undefined"
  end.

(** ** The Update object *)

(** The fields the constructor sets; [square] is the shared state the
    orchestrator works on (see [world] below). *)
Record Update := {
  strict : regex;
  loose : regex;
  lines : Z
}.

(** [new Update(square)] *)
Definition new_Update : Update :=
  {| strict := semver; loose := sillyver; lines := 10 |}.

(** ** [Update.prototype.version] *)

(** [match[i] ? match[i].trim() : 0], as [join] prints it. *)
Definition component (mt : caps) (i : nat) : jsstring :=
  match cap mt i with
  | Some ((_ :: _) as w) => trim w
  | _ => str "0"
  end.

(** The callback [some] of [version]: it runs a recompiled pattern
    (no flags) on [content] and sets [result] on a match; what it
    returns, [!!result], is tested in [version_loop]. *)
Definition version_some (regexp : regex) (content : jsstring)
    (result : option jsstring) : option jsstring :=
  match exec regexp content with
  | Some mt =>
      Some (join (str ".") [component mt 1; component mt 2; component mt 3])
  | None => result
  end.

(** [Array.prototype.some] over the patterns, threading [result]. *)
Fixpoint version_loop (regexps : list regex) (content : jsstring)
    (result : option jsstring) : option jsstring :=
  match regexps with
  | [] => result
  | regexp :: rest =>
      let result' := version_some regexp content result in
      if truthy (value_of_option result') then result'
      else version_loop rest content result'
  end.

(** [version(content)] with receiver [this]; [content] is a string or
    [undefined], which [exec] turns into a string. *)
Definition version (this : option Update) (content : option jsstring)
  : result (option jsstring) :=
  match this with
  | None => Throw (type_error "Cannot read property 'strict' of undefined")
  | Some self =>
      Ok (version_loop [strict self; loose self] (to_string content) None)
  end.

(** ** [Update.prototype.raw] *)

(** [s.substr(1)] *)
Definition substr1 (s : jsstring) : jsstring := skipn 1 s.

(** [raw(uri)]: a [TypeError] when [githubRE] does not match, since
    [chunks] is then [null]. *)
Definition raw (uri : jsstring) : result jsstring :=
  match exec githubRE uri with
  | None => Throw (type_error "Cannot read property '1' of null")
  | Some chunks =>
      let user := cap chunks 1 in
      let repo := cap chunks 2 in
      match cap chunks 3 with
      | None => Throw (type_error "Cannot call method 'substr' of undefined")
      | Some slash_branch =>
          let branch := substr1 slash_branch in
          let file := cap chunks 4 in
          Ok (str "https://raw.github.com/" ++ to_string user ++ str "/"
              ++ to_string repo ++ str "/" ++ branch ++ str "/"
              ++ to_string file)
      end
  end.

(** ** The collaborators *)

(** What [request.get] hands to its callback. *)
Inductive response :=
| NetworkError (err : error)
| Response (statusCode : Z) (body : option jsstring).

(** The request of [api.repos.getCommits]. *)
Record commits_request := {
  user : jsstring;
  repo : jsstring;
  path : jsstring;
  sha : jsstring
}.

(** The outside world as the module sees it: the HTTP client, the lazy
    loaders of [canihaz], the GitHub API (the [sha]s of the commits, or
    an error) and the file system ([Some e]: writing that file throws
    [e]). *)
Record collaborators := {
  request_get : jsstring -> response;
  canihaz_github : option error;
  getCommits : commits_request -> error + list jsstring;
  canihaz_cheerio : option error;
  writeFileSync : jsstring -> option error
}.

(** ** The fetchers

    A fetcher ends in one of four ways: it calls [fn]; it throws in the
    caller's stack ([throw]); it throws inside a callback that a
    collaborator runs later ([uncaught]); or it returns and nothing
    further is scheduled ([idle]).  The answer type [A] is what the rest
    of the program makes of each. *)
Section Fetchers.

Variable A : Type.
Variable throw : error -> A.
Variable uncaught : error -> A.
Variable idle : A.
Variable env : collaborators.

(** [fn(err, version, content)] *)
Definition fetched := option error -> value -> option jsstring -> A.

(** [download(uri, fn)], with [requested] inlined. *)
Definition download (uri : jsstring)
    (fn : option error -> option jsstring -> A) : A :=
  match request_get env uri with
  | NetworkError err => fn (Some err) None
  | Response statusCode body =>
      if negb (statusCode =? 200)%Z
      then fn (Some (new_Error (str "Invalid status code"))) None
      else match body with
           | Some b => fn None (Some b)
           | None =>
               uncaught
                 (type_error "Cannot call method 'toString' of undefined")
           end
  end.

(** [version = version(line)] in [someline]: the local variable
    [version] is called as a plain function, without a receiver. *)
Definition call_version (f : value) (line : option jsstring) : result value :=
  match f with
  | VVersionFunction =>
      let* r := version None line in Ok (value_of_option r)
  | _ => Throw (type_error "version is not a function")
  end.

(** [lines.some(someline)], threading the variable [version]. *)
Fixpoint someline_loop (window : list (option jsstring)) (v : value)
  : result value :=
  match window with
  | [] => Ok v
  | line :: rest =>
      let* v' := call_version v line in
      if truthy v' then Ok v' else someline_loop rest v'
  end.

(** [arr.splice(0, n)]: the first [n] elements. *)
Definition splice0 {T : Type} (n : Z) (arr : list T) : list T :=
  firstn (Z.to_nat n) arr.

(** [req(uri, fn)] with receiver [this], [downloading] inlined. *)
Definition req (this : option Update) (uri : jsstring) (fn : fetched) : A :=
  match this with
  | None => throw (type_error "Cannot read property 'lines' of undefined")
  | Some self =>
      let n := lines self in
      let v := VVersionFunction in
      download uri (fun err content =>
        match err with
        | Some e => fn (Some e) VUndefined None
        | None =>
            match content with
            | None | Some [] =>
                fn (Some (new_Error (str "No content received from " ++ uri)))
                   VUndefined None
            | Some text =>
                let window := splice0 n (split line_separator text) in
                match someline_loop window v with
                | Throw e => uncaught e
                | Ok v' => fn None v' (Some text)
                end
            end
        end)
  end.

(** [github(uri, fn)], with [lazyload] and [getcommit] inlined. *)
Definition github (uri : jsstring) (fn : fetched) : A :=
  match exec githubRE uri with
  | None => throw (type_error "Cannot read property '1' of null")
  | Some chunks =>
      match cap chunks 3 with
      | None => throw (type_error "Cannot call method 'substr' of undefined")
      | Some slash_branch =>
          match canihaz_github env with
          | Some err => fn (Some err) VUndefined None
          | None =>
              let request :=
                {| user := to_string (cap chunks 1);
                   repo := to_string (cap chunks 2);
                   path := to_string (cap chunks 4);
                   sha := substr1 slash_branch |} in
              match getCommits env request with
              | inl err => fn (Some err) VUndefined None
              | inr [] =>
                  fn (Some (new_Error (str "No commits in this repo: " ++ uri)))
                     VUndefined None
              | inr (commit :: _) => fn None (VString commit) None
              end
          end
      end
  end.

(** [selector(uri, fn)]: on a loaded [cheerio] it prints the text under
    the selector (to the console, which the model leaves out) and
    returns; [fn] is called on a load error only. *)
Definition selector (uri : jsstring) (fn : fetched) : A :=
  match canihaz_cheerio env with
  | Some err => fn (Some err) VUndefined None
  | None => idle
  end.

End Fetchers.

(** ** The manifest *)

(** A parsed JSON document.  Members are the own properties of an
    object; the indices of arrays and strings and what [Object.prototype]
    lends are outside the model. *)
#[local] Unset Elimination Schemes.
Inductive json :=
| JNull
| JBool (b : bool)
| JNumber (z : Z)
| JString (s : jsstring)
| JArray (items : list json)
| JObject (members : list (jsstring * json)).
#[local] Set Elimination Schemes.

(** A string that the module parses or writes: given by its code units,
    or as [JSON.stringify(doc, null, 2)] by the document it prints.  A
    text given by code units stands for one that is not JSON. *)
Inductive text :=
| Chars (s : jsstring)
| Stringified (doc : json).

Definition JSON_stringify (doc : json) : text := Stringified doc.

Definition JSON_parse (t : text) : result json :=
  match t with
  | Stringified doc => Ok doc
  | Chars _ => Throw (ErrorObject SyntaxError (str "Unexpected token"))
  end.

Section Members.

Variable T : Type.

(** [obj[key]] *)
Fixpoint lookup (key : jsstring) (obj : list (jsstring * T)) : option T :=
  match obj with
  | [] => None
  | (k, v) :: rest => if jsstring_eqb k key then Some v else lookup key rest
  end.

(** [obj[key] = v]: an existing member keeps its place, a new one goes
    last. *)
Fixpoint assign (key : jsstring) (v : T) (obj : list (jsstring * T))
  : list (jsstring * T) :=
  match obj with
  | [] => [(key, v)]
  | (k, x) :: rest =>
      if jsstring_eqb k key then (k, v) :: rest
      else (k, x) :: assign key v rest
  end.

(** [delete obj[key]] *)
Fixpoint remove_member (key : jsstring) (obj : list (jsstring * T))
  : list (jsstring * T) :=
  match obj with
  | [] => []
  | (k, x) :: rest =>
      if jsstring_eqb k key then rest else (k, x) :: remove_member key rest
  end.

(** [Object.keys(obj)] *)
Definition keys (obj : list (jsstring * T)) : list jsstring := map fst obj.

End Members.

(** What [entry.version = version] leaves in the document once it is
    printed: a string member, or none for a value JSON does not print. *)
Definition put_version (version : value) (entry : list (jsstring * json))
  : list (jsstring * json) :=
  match version with
  | VString s => assign (str "version") (JString s) entry
  | VUndefined | VVersionFunction => remove_member (str "version") entry
  end.

(** [code.bundle[key].version = version] *)
Definition assign_version (code : json) (key : jsstring) (version : value)
  : result json :=
  match code with
  | JNull => Throw (type_error "Cannot read property 'bundle' of null")
  | JObject members =>
      match lookup (str "bundle") members with
      | Some (JObject bundles) =>
          match lookup key bundles with
          | Some (JObject entry) =>
              Ok (JObject
                    (assign (str "bundle")
                       (JObject
                          (assign key (JObject (put_version version entry))
                             bundles))
                       members))
          | Some (JArray _) => Ok code
          | _ => Throw (type_error "Cannot set property 'version'")
          end
      | Some JNull | None =>
          Throw (type_error "Cannot read property of undefined")
      | Some _ => Throw (type_error "Cannot set property 'version'")
      end
  | _ => Throw (type_error "Cannot read property of undefined")
  end.

Module Bundle.

(** An entry of [package.bundle]: [latest] is [None] when the entry has
    none, [download] is the truth value of the flag, [meta_location] is
    [meta.location]. *)
Record t := {
  version : value;
  latest : option jsstring;
  download : bool;
  content : option jsstring;
  meta_location : jsstring
}.

Definition set_version (v : value) (b : t) : t :=
  {| version := v; latest := latest b; download := download b;
     content := content b; meta_location := meta_location b |}.

Definition set_content (c : option jsstring) (b : t) : t :=
  {| version := version b; latest := latest b; download := download b;
     content := c; meta_location := meta_location b |}.

End Bundle.

Module Package.

(** [square.package] *)
Record t := {
  bundle : list (jsstring * Bundle.t);
  path : option jsstring;
  source : text;
  location : jsstring
}.

Definition set_bundle (bs : list (jsstring * Bundle.t)) (p : t) : t :=
  {| bundle := bs; path := path p; source := source p;
     location := location p |}.

Definition set_source (s : text) (p : t) : t :=
  {| bundle := bundle p; path := path p; source := s;
     location := location p |}.

End Package.

(** ** The orchestrator's state *)

(** What a run leaves behind outside the package: the lines given to
    [square.logger], and the files written. *)
Inductive event :=
| Notice (format : jsstring) (key : jsstring) (args : list value)
| LoggedError (err : error)
| Wrote (file : jsstring) (data : text).

Record world := {
  package : Package.t;
  trace : list event
}.

Definition emit (e : event) (w : world) : world :=
  {| package := package w; trace := trace w ++ [e] |}.

Definition with_package (f : Package.t -> Package.t) (w : world) : world :=
  {| package := f (package w); trace := trace w |}.

(** [bundle.f = ...] on the entry that [bundles[key]] refers to. *)
Definition update_bundle (key : jsstring) (f : Bundle.t -> Bundle.t)
    (w : world) : world :=
  with_package
    (fun p =>
       match lookup key (Package.bundle p) with
       | Some b => Package.set_bundle (assign key (f b) (Package.bundle p)) p
       | None => p
       end) w.

(** How the task of one key ends: its callback [cb] is called; nothing
    is pending and [cb] was not called; an exception leaves [testing];
    or an exception leaves a callback that a collaborator ran. *)
Inductive ending :=
| Called (err : option error)
| Idle
| Thrown (e : error)
| Uncaught (e : error).

Definition task := world -> world * ending.

(** A completion callback, as a caller passes one to [execute]: calling
    it with an error or none is whatever the caller makes of it. *)
Definition callback := option error -> world -> world.

(** ** [Update.prototype.execute] *)

(** The three update handlers, as the values [provider] can hold. *)
Inductive provider := Selector | Github | Req.

Definition provider_eqb (p q : provider) : bool :=
  match p, q with
  | Selector, Selector | Github, Github | Req, Req => true
  | _, _ => false
  end.

(** "Find the correct update handler": the three [if]s of [testing], in
    order, on the variable [provider] that starts [undefined]. *)
Definition find_provider (latest : jsstring) : provider :=
  let p0 : option provider := None in
  let p1 := if contains_char 35 latest then Some Selector else p0 in
  let p2 := if RegExp.test githubRE latest then Some Github else p1 in
  match p2 with
  | None => Req
  | Some p => p
  end.

Section Execute.

Variable env : collaborators.

Definition throw_task (e : error) : task := fun w => (w, Thrown e).
Definition uncaught_task (e : error) : task := fun w => (w, Uncaught e).
Definition idle_task : task := fun w => (w, Idle).

(** [cb(err)] *)
Definition cb (err : option error) : task := fun w => (w, Called err).

(** [provider(bundle.latest, test)]: a plain call, so the handler runs
    without a receiver. *)
Definition call_provider (p : provider) (uri : jsstring) (fn : fetched task)
  : task :=
  match p with
  | Selector => selector idle_task env uri fn
  | Github => github throw_task env uri fn
  | Req => req throw_task uncaught_task env None uri fn
  end.

(** The two [writeFileSync] calls inside [try]: what was written, and
    the exception caught, if any. *)
Definition write_files (manifest : jsstring) (source : text)
    (file : jsstring) (content : option jsstring) (w : world)
  : world * option error :=
  match writeFileSync env manifest with
  | Some e => (w, Some e)
  | None =>
      let w1 := emit (Wrote manifest source) w in
      match writeFileSync env file with
      | Some e => (w1, Some e)
      | None => (emit (Wrote file (Chars (to_string content))) w1, None)
      end
  end.

(** [done(err, content)] for the entry [key] and the resolved
    [version]. *)
Definition done (key : jsstring) (version : value) (err : option error)
    (content : option jsstring) : task :=
  fun w =>
    match err with
    | Some e => cb (Some e) w
    | None =>
        match lookup key (Package.bundle (package w)) with
        | None => uncaught_task (type_error "bundle is undefined") w
        | Some bundle =>
            match JSON_parse (Package.source (package w)) with
            | Throw e => uncaught_task e w
            | Ok code =>
                let current := Bundle.version bundle in
                match assign_version code key version with
                | Throw e => uncaught_task e w
                | Ok code' =>
                    let w1 := update_bundle key (Bundle.set_version version) w in
                    let w2 := update_bundle key (Bundle.set_content content) w1 in
                    let source := JSON_stringify code' in
                    let w3 := with_package (Package.set_source source) w2 in
                    let (w4, err') :=
                      write_files (Package.location (package w3)) source
                        (Bundle.meta_location bundle) content w3 in
                    match current with
                    | VUndefined =>
                        uncaught_task
                          (type_error "Cannot read property 'grey' of undefined")
                          w4
                    | _ =>
                        cb err'
                          (emit (Notice
                                   (str "sucessfully updated %s from version %s to %s")
                                   key [current; version]) w4)
                    end
                end
            end
        end
    end.

(** [test(err, version, content)], the callback given to the provider,
    for the entry [key] fetched by [p]. *)
Definition test (key : jsstring) (p : provider) : fetched task :=
  fun err version content w =>
    match err with
    | Some e => cb (Some e) w
    | None =>
        if negb (truthy version) then
          cb (Some (new_Error
                      (str "unable to find and parse the version for " ++ key)))
             w
        else
          match lookup key (Package.bundle (package w)) with
          | None => uncaught_task (type_error "bundle is undefined") w
          | Some bundle =>
              if strict_equal version (Bundle.version bundle) then cb None w
              else
                let w1 :=
                  emit (Notice (str "%s is out of date, latest version is %s")
                          key [version]) w in
                match content with
                | Some (_ :: _) => done key version None content w1
                | _ =>
                    let latest := to_string (Bundle.latest bundle) in
                    if Bundle.download bundle || provider_eqb p Github then
                      match raw latest with
                      | Throw e => uncaught_task e w1
                      | Ok data =>
                          download uncaught_task env data (done key version) w1
                      end
                    else
                      download uncaught_task env latest (done key version) w1
                end
          end
    end.

(** [testing(key, cb)], the iterator of the run. *)
Definition testing (key : jsstring) : task :=
  fun w =>
    match lookup key (Package.bundle (package w)) with
    | None => throw_task (type_error "Cannot read property 'latest' of undefined") w
    | Some bundle =>
        match Bundle.latest bundle with
        | None | Some [] => cb None w
        | Some latest =>
            let p := find_provider latest in
            call_provider p latest (test key p) w
        end
    end.

(** [finished(err)]: [self.logger] is read on the [Update] object, which
    has no such property. *)
Definition finished (err : option error) (w : world) : result world :=
  match err with
  | Some (ErrorArray (_ :: _)) =>
      Throw (type_error "Cannot call method 'error' of undefined")
  | _ => Ok w
  end.

(** How a run ends: [execute] returns (and every callback that was going
    to run has run); an exception leaves [execute]; or an exception
    leaves a callback. *)
Inductive run_end :=
| Returned
| Threw (e : error)
| Crashed (e : error).

(** [async.forEach(arr, iterator, callback)]: the iterators are started
    in order; [callback] is called once, with the first error that an
    iterator passes to its [cb], or with no error once every iterator has
    called its [cb] without one.  [live] is false once [callback] has
    been replaced by the empty function, [completed] counts the
    iterators that called back without error.  The callbacks of the
    collaborators are delivered task by task, in the order of the keys. *)
Fixpoint forEach_from (total : nat) (arr : list jsstring)
    (completed : nat) (live : bool) (w : world) : world * run_end :=
  match arr with
  | [] => (w, Returned)
  | key :: rest =>
      match testing key w with
      | (w', Called (Some err)) =>
          if live then
            match finished (Some err) w' with
            | Ok w'' => forEach_from total rest completed false w''
            | Throw e => (w', Crashed e)
            end
          else forEach_from total rest completed live w'
      | (w', Called None) =>
          if live && (S completed =? total)%nat then
            match finished None w' with
            | Ok w'' => forEach_from total rest (S completed) live w''
            | Throw e => (w', Crashed e)
            end
          else forEach_from total rest (S completed) live w'
      | (w', Idle) => forEach_from total rest completed live w'
      | (w', Thrown e) => (w', Threw e)
      | (w', Uncaught e) => (w', Crashed e)
      end
  end.

Definition async_forEach (arr : list jsstring) (w : world) : world * run_end :=
  match arr with
  | [] =>
      match finished None w with
      | Ok w' => (w', Returned)
      | Throw e => (w, Threw e)
      end
  | _ => forEach_from (length arr) arr 0 true w
  end.

(** [execute(fn)] *)
Definition execute (fn : callback) (w : world) : world * run_end :=
  let bundles := Package.bundle (package w) in
  let files := keys bundles in
  match Package.path (package w) with
  | None | Some [] => (w, Returned)
  | Some _ => async_forEach files w
  end.

End Execute.

(** ** What the caller of a fetcher sees *)

Inductive seen :=
| Fetched (err : option error) (version : value) (content : option jsstring)
| Downloaded (err : option error) (content : option jsstring)
| SawThrow (e : error)
| SawUncaught (e : error)
| SawIdle.

(** [download(uri, fn)], by what [fn] receives. *)
Definition observe_download (env : collaborators) (uri : jsstring) : seen :=
  download SawUncaught env uri Downloaded.

(** [req(uri, fn)] with receiver [this], by what [fn] receives. *)
Definition observe_req (env : collaborators) (this : option Update)
    (uri : jsstring) : seen :=
  req SawThrow SawUncaught env this uri Fetched.

(** ** The matches of a pattern, declaratively

    [steps r s c s' c']: some way of matching [r] at the head of [s]
    leaves the input [s'] and turns the captures [c] into [c'].  The
    matcher only ever answers through such a match ([m_sound] below);
    which one it picks is a matter of its order of search. *)
Inductive steps : regex -> jsstring -> caps -> jsstring -> caps -> Prop :=
| steps_Eps s c : steps Eps s c s c
| steps_Cls p a s c : p a = true -> steps (Cls p) (a :: s) c s c
| steps_Seq r1 r2 s c s1 c1 s2 c2 :
    steps r1 s c s1 c1 -> steps r2 s1 c1 s2 c2 ->
    steps (Seq r1 r2) s c s2 c2
| steps_Alt_l r1 r2 s c s' c' :
    steps r1 s c s' c' -> steps (Alt r1 r2) s c s' c'
| steps_Alt_r r1 r2 s c s' c' :
    steps r2 s c s' c' -> steps (Alt r1 r2) s c s' c'
| steps_Opt_skip r s c : steps (Opt r) s c s c
| steps_Opt_take r s c s' c' :
    steps r s c s' c' -> steps (Opt r) s c s' c'
| steps_Star_stop r s c : steps (Star r) s c s c
| steps_Star_more r s c s1 c1 s2 c2 :
    steps r s c s1 c1 -> steps (Star r) s1 c1 s2 c2 ->
    steps (Star r) s c s2 c2
| steps_Group i r s c s' c' :
    steps r s c s' c' ->
    steps (Group i r) s c s' (set_cap i (consumed s s') c').

(** The groups of a pattern. *)
Fixpoint groups (r : regex) : list nat :=
  match r with
  | Eps | Cls _ => []
  | Seq r1 r2 | Alt r1 r2 => groups r1 ++ groups r2
  | Star r1 | Opt r1 => groups r1
  | Group i r1 => i :: groups r1
  end.

(** [t] starts with a code unit of the class [p]. *)
Definition starts (p : N -> bool) (t : jsstring) : Prop :=
  match t with
  | [] => False
  | a :: _ => p a = true
  end.

(** [t] starts with no code unit of the class [p]. *)
Definition stops (p : N -> bool) (t : jsstring) : Prop :=
  match t with
  | [] => True
  | a :: _ => p a = false
  end.

(** Every code unit of [w] is in the class [p]. *)
Definition all_in (p : N -> bool) (w : jsstring) : Prop :=
  Forall (fun a => p a = true) w.

(** No code unit of [w] is in the class [p]. *)
Definition none_in (p : N -> bool) (w : jsstring) : Prop :=
  Forall (fun a => p a = false) w.

(** ** Sample inputs *)

Definition LF : jsstring := [10].

(** Eleven lines without a version, and [v1.2.3] on line 12. *)
Definition twelve_lines : jsstring :=
  join LF (repeat (str "x") 11 ++ [str "v1.2.3"]).

Definition no_commits : commits_request -> error + list jsstring :=
  fun _ => inr [].

(** A network that answers every request with status 200 and [body]. *)
Definition serving (body : jsstring) : collaborators :=
  {| request_get := fun _ => Response 200 (Some body);
     canihaz_github := None;
     getCommits := no_commits;
     canihaz_cheerio := None;
     writeFileSync := fun _ => None |}.

Definition acme_blob : jsstring :=
  str "https://github.com/acme/widgets/blob/main/src/a.js".

Definition entry (version : string) (latest : string) (file : string)
  : Bundle.t :=
  {| Bundle.version := VString (str version);
     Bundle.latest := Some (str latest);
     Bundle.download := false;
     Bundle.content := Some (str "old");
     Bundle.meta_location := str file |}.

Definition entry_doc (version : string) : json :=
  JObject [(str "version", JString (str version))].

(** A manifest with two bundles on GitHub, both recorded at [1]. *)
Definition two_bundles : world :=
  {| package :=
       {| Package.bundle :=
            [(str "a", entry "1" "https://github.com/acme/a/blob/main/a.js"
                         "/p/a.js");
             (str "b", entry "1" "https://github.com/acme/b/blob/main/b.js"
                         "/p/b.js")];
          Package.path := Some (str "/p");
          Package.source :=
            Stringified
              (JObject [(str "bundle",
                         JObject [(str "a", entry_doc "1");
                                  (str "b", entry_doc "1")])]);
          Package.location := str "/p/package.json" |};
     trace := [] |}.

(** GitHub knows no commit for the repository [a] and the commit [2]
    for every other one; every download gives [new]; [broken] is the
    file whose write throws, if any. *)
Definition a_has_no_commits (broken : option jsstring) : collaborators :=
  {| request_get := fun _ => Response 200 (Some (str "new"));
     canihaz_github := None;
     getCommits := fun request =>
       if jsstring_eqb (repo request) (str "a") then inr []
       else inr [str "2"];
     canihaz_cheerio := None;
     writeFileSync := fun file =>
       match broken with
       | Some f =>
           if jsstring_eqb f file then Some (new_Error (str "EACCES"))
           else None
       | None => None
       end |}.

(** GitHub knows the commit [1] for the repository [a], which is what
    the manifest records, and the commit [2] for every other one. *)
Definition a_is_current : collaborators :=
  {| request_get := fun _ => Response 200 (Some (str "new"));
     canihaz_github := None;
     getCommits := fun request =>
       if jsstring_eqb (repo request) (str "a") then inr [str "1"]
       else inr [str "2"];
     canihaz_cheerio := None;
     writeFileSync := fun _ => None |}.

(** A manifest whose only bundle gives a plain address, for the line
    scanner. *)
Definition one_plain_bundle : world :=
  {| package :=
       {| Package.bundle :=
            [(str "j", entry "1" "http://code.example.com/j.js" "/p/j.js")];
          Package.path := Some (str "/p");
          Package.source :=
            Stringified
              (JObject [(str "bundle", JObject [(str "j", entry_doc "1")])]);
          Package.location := str "/p/package.json" |};
     trace := [] |}.

(** [w'] has no logged error that [w] has not. *)
Definition no_new_error (w w' : world) : Prop :=
  forall err, In (LoggedError err) (trace w') -> In (LoggedError err) (trace w).

(** ** Observations for the further properties *)

(** [\r] or [\n], the code units of the separators of [req]. *)
Definition is_eol (c : N) : bool := (c =? 13) || (c =? 10).

Definition CR : jsstring := [13].
Definition CRLF : jsstring := [13; 10].

(** What the group of [line_separator] holds after the separator
    [sep]: it takes part in [\r\n] only. *)
Definition separator_capture (sep : jsstring) : option jsstring :=
  if jsstring_eqb sep CRLF then Some CRLF else None.

(** The lines [ls] with the entry [x] between each two of them. *)
Fixpoint interleave (x : option jsstring) (ls : list jsstring)
  : list (option jsstring) :=
  match ls with
  | [] => []
  | [l] => [Some l]
  | l :: rest => Some l :: x :: interleave x rest
  end.

(** What of a package a run has no business changing: the path, the
    location of the manifest, and of every entry, in order, the key,
    [latest], [download] and [meta.location]. *)
Definition entry_shape (kb : jsstring * Bundle.t)
  : jsstring * (option jsstring * bool * jsstring) :=
  (fst kb, (Bundle.latest (snd kb), Bundle.download (snd kb),
            Bundle.meta_location (snd kb))).

Definition shape (p : Package.t)
  : option jsstring * jsstring
    * list (jsstring * (option jsstring * bool * jsstring)) :=
  (Package.path p, Package.location p, map entry_shape (Package.bundle p)).

(** The files of a package: the manifest and the file of every entry. *)
Definition files_of (p : Package.t) : list jsstring :=
  Package.location p
  :: map (fun kb => Bundle.meta_location (snd kb)) (Package.bundle p).

(** An event a run may add for the package [p]: a notice, or the write
    of one of the files of [p]. *)
Definition expected_event (p : Package.t) (e : event) : Prop :=
  match e with
  | Notice _ _ _ => True
  | LoggedError _ => False
  | Wrote file _ => In file (files_of p)
  end.

(** [w'] is [w] after part of a run: same shape, and a trace that
    continues that of [w] with expected events. *)
Definition continues (w w' : world) : Prop :=
  shape (package w') = shape (package w)
  /\ exists events,
       trace w' = trace w ++ events
       /\ Forall (expected_event (package w)) events.

(** An entry has no [latest], or an empty one. *)
Definition no_latest (b : Bundle.t) : Prop :=
  Bundle.latest b = None \/ Bundle.latest b = Some [].

(** The [latest] of an entry, if any, has not the GitHub blob shape. *)
Definition not_on_github (b : Bundle.t) : Prop :=
  forall latest, Bundle.latest b = Some latest ->
                 RegExp.test githubRE latest = false.

(** A manifest with one bundle on GitHub, recorded at [1]. *)
Definition widgets_bundle : world :=
  {| package :=
       {| Package.bundle := [(str "w", entry "1" "https://github.com/acme/widgets/blob/main/src/a.js" "/p/w.js")];
          Package.path := Some (str "/p");
          Package.source :=
            Stringified
              (JObject [(str "bundle", JObject [(str "w", entry_doc "1")])]);
          Package.location := str "/p/package.json" |};
     trace := [] |}.

(** GitHub answers every lookup with the commit [2]; only the raw
    address of the widgets file can be downloaded, and gives [new]. *)
Definition widgets_at_2 : collaborators :=
  {| request_get := fun uri =>
       if jsstring_eqb uri
            (str "https://raw.github.com/acme/widgets/main/src/a.js")
       then Response 200 (Some (str "new"))
       else Response 404 None;
     canihaz_github := None;
     getCommits := fun _ => inr [str "2"];
     canihaz_cheerio := None;
     writeFileSync := fun _ => None |}.

(** No match of [r] starts inside [pre], in the text [pre ++ rest]. *)
Fixpoint no_match_in (r : regex) (pre rest : jsstring) : bool :=
  match pre with
  | [] => true
  | _ :: pre' =>
      match match_here r (pre ++ rest) with
      | Some _ => false
      | None => no_match_in r pre' rest
      end
  end.

(** A completion callback that does nothing. *)
Definition no_completion : callback := fun _ w => w.

(** A completion callback that reports to [logger.error] when it is
    called: [function (err) { logger.error(new Error('completed')) }]. *)
Definition completed : error := new_Error (str "completed").

Definition marking_completion : callback :=
  fun _ w => emit (LoggedError completed) w.

(** The manifest of [widgets_bundle] before a version was ever
    recorded: the entry has no [version]. *)
Definition widgets_unversioned : world :=
  {| package :=
       {| Package.bundle :=
            [(str "w",
              {| Bundle.version := VUndefined;
                 Bundle.latest :=
                   Some (str "https://github.com/acme/widgets/blob/main/src/a.js");
                 Bundle.download := false;
                 Bundle.content := Some (str "old");
                 Bundle.meta_location := str "/p/w.js" |})];
          Package.path := Some (str "/p");
          Package.source :=
            Stringified
              (JObject [(str "bundle", JObject [(str "w", JObject [])])]);
          Package.location := str "/p/package.json" |};
     trace := [] |}.

(** [widgets_at_2] with a file [/p/w.js] that cannot be written. *)
Definition widgets_unwritable : collaborators :=
  {| request_get := request_get widgets_at_2;
     canihaz_github := None;
     getCommits := fun _ => inr [str "2"];
     canihaz_cheerio := None;
     writeFileSync := fun file =>
       if jsstring_eqb file (str "/p/w.js")
       then Some (new_Error (str "EACCES"))
       else None |}.

(** * Properties *)

Unset Implicit Arguments.

(** ** Strings *)

Lemma jsstring_eqb_eq (a b : jsstring) : jsstring_eqb a b = true <-> a = b.
Proof.
  unfold jsstring_eqb. destruct (list_eq_dec N.eq_dec a b); split;
    congruence.
Qed.

Lemma jsstring_eqb_refl (a : jsstring) : jsstring_eqb a a = true.
Proof. now apply jsstring_eqb_eq. Qed.

Lemma consumed_app (w t : jsstring) : consumed (w ++ t) t = w.
Proof.
  unfold consumed. rewrite length_app, Nat.add_sub.
  rewrite firstn_app, Nat.sub_diag, firstn_all. simpl. apply app_nil_r.
Qed.

Lemma shorter_cons (a : N) (s : jsstring) : shorter s (a :: s) = true.
Proof. unfold shorter. simpl. apply Nat.ltb_lt. lia. Qed.

Lemma digit_not_space (a : N) : is_digit a = true -> is_space a = false.
Proof.
  unfold is_digit, is_space, in_range. intros H.
  apply andb_true_iff in H as [H1 H2].
  apply N.leb_le in H1. apply N.leb_le in H2.
  repeat (apply orb_false_iff; split);
    try (apply N.eqb_neq; lia);
    apply andb_false_iff; ((left; apply N.leb_gt; lia) || (right; apply N.leb_gt; lia)).
Qed.

Lemma trim_left_keep (a : N) (s : jsstring) :
  is_space a = false -> trim_left (a :: s) = a :: s.
Proof. intros H. unfold trim_left. now rewrite H. Qed.

(** [trim] leaves a string alone that neither starts nor ends with white
    space. *)
Lemma trim_keep (a b : N) (w : jsstring) :
  is_space a = false -> is_space b = false ->
  trim (a :: w ++ [b]) = a :: w ++ [b].
Proof.
  intros Ha Hb. unfold trim. rewrite trim_left_keep by assumption.
  assert (E : rev (a :: w ++ [b]) = b :: rev w ++ [a]).
  { simpl. rewrite rev_app_distr. reflexivity. }
  rewrite E, trim_left_keep by assumption.
  rewrite <- E. apply rev_involutive.
Qed.

Lemma trim_single (a : N) : is_space a = false -> trim [a] = [a].
Proof. intros H. unfold trim, trim_left. simpl. now rewrite H; simpl; rewrite H. Qed.

(** [trim] leaves a string without white space alone. *)
Lemma trim_none_in (w : jsstring) : none_in is_space w -> trim w = w.
Proof.
  intros H. destruct w as [|a w]; [reflexivity|].
  destruct (@exists_last _ (a :: w)) as (w' & b & E); [discriminate|].
  rewrite E in *. clear E a w.
  destruct w' as [|a w].
  - inversion H; subst. now apply trim_single.
  - apply Forall_app in H as [Ha Hb].
    apply trim_keep; [now inversion Ha | now inversion Hb].
Qed.

Lemma none_in_digits_space (w : jsstring) :
  all_in is_digit w -> none_in is_space w.
Proof.
  unfold all_in, none_in. intros H. eapply Forall_impl; [|exact H].
  apply digit_not_space.
Qed.

(** ** The matcher *)

Lemma nth_set_nth_same (j : nat) (v : option jsstring) (c : caps) :
  (j < length c)%nat -> nth j (set_nth j v c) None = v.
Proof.
  revert j. induction c as [|x c IH]; intros j H; [simpl in H; lia|].
  destruct j as [|j]; [reflexivity|]. simpl. apply IH. simpl in H. lia.
Qed.

Lemma nth_set_nth_other (i j : nat) (v : option jsstring) (c : caps) :
  i <> j -> nth i (set_nth j v c) None = nth i c None.
Proof.
  revert i j. induction c as [|x c IH]; intros i j H; [now destruct j|].
  destruct j as [|j], i as [|i]; try reflexivity; try congruence.
  simpl. apply IH. congruence.
Qed.

Lemma length_set_nth (j : nat) (v : option jsstring) (c : caps) :
  length (set_nth j v c) = length c.
Proof.
  revert j. induction c as [|x c IH]; intros j; [reflexivity|].
  destruct j; simpl; [reflexivity|now rewrite IH].
Qed.

Lemma cap_set_cap_same (i : nat) (w : jsstring) (c : caps) :
  (1 <= i <= length c)%nat -> cap (set_cap i w c) i = Some w.
Proof.
  intros [H1 H2]. destruct i as [|j]; [lia|].
  unfold cap, set_cap. simpl. apply nth_set_nth_same. lia.
Qed.

Lemma cap_set_cap_other (i j : nat) (w : jsstring) (c : caps) :
  (1 <= i)%nat -> i <> j -> cap (set_cap j w c) i = cap c i.
Proof.
  intros Hi Hij. destruct j as [|j]; [reflexivity|].
  destruct i as [|i]; [lia|].
  unfold cap, set_cap. simpl. apply nth_set_nth_other. congruence.
Qed.

Lemma length_set_cap (i : nat) (w : jsstring) (c : caps) :
  length (set_cap i w c) = length c.
Proof. destruct i; [reflexivity|apply length_set_nth]. Qed.

Section MatcherFacts.

Variable R : Type.
Implicit Types (k : cont R) (s t w : jsstring) (c : caps).

Lemma m_Chr (a : N) t c k : m (Chr a) (a :: t) c k = k t c.
Proof. simpl. now rewrite N.eqb_refl. Qed.

Lemma m_Cls (p : N -> bool) (a : N) t c k :
  p a = true -> m (Cls p) (a :: t) c k = k t c.
Proof. intros H. simpl. now rewrite H. Qed.

Lemma m_Cls_stops (p : N -> bool) t c k :
  stops p t -> m (Cls p) t c k = None.
Proof. intros H. destruct t as [|a t]; simpl in *; [reflexivity|now rewrite H]. Qed.

Lemma m_Lit w t c k : m (Lit w) (w ++ t) c k = k t c.
Proof.
  revert c k. induction w as [|a w IH]; intros c k; [reflexivity|].
  change (m (Chr a) ((a :: w) ++ t) c (fun s' c' => m (Lit w) s' c' k) = k t c).
  simpl app. rewrite m_Chr. apply IH.
Qed.

(** A greedy star over a class takes the whole run [w] of the class
    when the continuation accepts what follows it. *)
Lemma star_iter_greedy (p : N -> bool) k (x : R) t c :
  stops p t -> k t c = Some x ->
  forall w n, all_in p w -> (length (w ++ t) <= n)%nat ->
  star_iter (m (Cls p)) k n (w ++ t) c = Some x.
Proof.
  intros Ht Hk. induction w as [|a w IH]; intros n Hw Hn.
  - destruct n as [|n]; [exact Hk|].
    destruct t as [|a t]; simpl in *; [exact Hk|]. rewrite Ht. exact Hk.
  - destruct n as [|n]; [simpl in Hn; lia|].
    inversion Hw as [|? ? Ha Hw']; subst.
    simpl. rewrite Ha, shorter_cons.
    rewrite IH; [reflexivity|assumption|simpl in Hn; lia].
Qed.

Lemma m_Star_greedy (p : N -> bool) k (x : R) w t c :
  all_in p w -> stops p t -> k t c = Some x ->
  m (Star (Cls p)) (w ++ t) c k = Some x.
Proof.
  intros Hw Ht Hk. simpl. now apply star_iter_greedy.
Qed.

Lemma m_Plus_greedy (p : N -> bool) k (x : R) w t c :
  w <> [] -> all_in p w -> stops p t -> k t c = Some x ->
  m (Plus (Cls p)) (w ++ t) c k = Some x.
Proof.
  intros Hne Hw Ht Hk. destruct w as [|a w]; [congruence|].
  inversion Hw; subst.
  change (m (Cls p) (a :: w ++ t) c
            (fun s' c' => m (Star (Cls p)) s' c' k) = Some x).
  rewrite m_Cls by assumption. now apply m_Star_greedy.
Qed.

(** *** Soundness: the matcher answers through a match *)

Lemma star_iter_sound (r : regex) :
  (forall s c k (x : R), m r s c k = Some x ->
     exists s' c', steps r s c s' c' /\ k s' c' = Some x) ->
  forall n s c k (x : R), star_iter (m r) k n s c = Some x ->
    exists s' c', steps (Star r) s c s' c' /\ k s' c' = Some x.
Proof.
  intros IH. induction n as [|n IHn]; intros s c k x H; simpl in H.
  - exists s, c. split; [constructor|assumption].
  - destruct (m r s c _) as [y|] eqn:E.
    + injection H as ->. apply IH in E as (s1 & c1 & Hs & Hk).
      destruct (shorter s1 s); [|discriminate].
      apply IHn in Hk as (s2 & c2 & Hs2 & Hk2).
      exists s2, c2. split; [econstructor; eassumption|assumption].
    + exists s, c. split; [constructor|assumption].
Qed.

Lemma m_sound (r : regex) :
  forall s c k (x : R), m r s c k = Some x ->
    exists s' c', steps r s c s' c' /\ k s' c' = Some x.
Proof.
  induction r as [|p|r1 IH1 r2 IH2|r1 IH1 r2 IH2|r IH|r IH|i r IH];
    intros s c k x H; simpl in H.
  - exists s, c. split; [constructor|assumption].
  - destruct s as [|a s]; [discriminate|].
    destruct (p a) eqn:E; [|discriminate].
    exists s, c. split; [now constructor|assumption].
  - apply IH1 in H as (s1 & c1 & Hs1 & H).
    apply IH2 in H as (s2 & c2 & Hs2 & H).
    exists s2, c2. split; [econstructor; eassumption|assumption].
  - destruct (m r1 s c k) as [y|] eqn:E.
    + injection H as ->. apply IH1 in E as (s1 & c1 & Hs & Hk).
      exists s1, c1. split; [now apply steps_Alt_l|assumption].
    + apply IH2 in H as (s1 & c1 & Hs & Hk).
      exists s1, c1. split; [now apply steps_Alt_r|assumption].
  - now apply star_iter_sound in H.
  - destruct (m r s c _) as [y|] eqn:E.
    + injection H as ->. apply IH in E as (s1 & c1 & Hs & Hk).
      destruct (shorter s1 s); [|discriminate].
      exists s1, c1. split; [now apply steps_Opt_take|assumption].
    + exists s, c. split; [constructor|assumption].
  - apply IH in H as (s1 & c1 & Hs & Hk).
    exists s1, (set_cap i (consumed s s1) c1).
    split; [now constructor|assumption].
Qed.

End MatcherFacts.

(** *** What a match consumes and which captures it sets *)

Lemma steps_suffix r s c s' c' :
  steps r s c s' c' -> exists w, s = w ++ s'.
Proof.
  induction 1 as [s c|p a s c H|r1 r2 s c s1 c1 s2 c2 _ [w1 E1] _ [w2 E2]
                 | | | | | |r s c s1 c1 s2 c2 _ [w1 E1] _ [w2 E2]| ];
    try assumption; try (now exists []).
  - now exists [a].
  - exists (w1 ++ w2). subst. now rewrite app_assoc.
  - exists (w1 ++ w2). subst. now rewrite app_assoc.
Qed.

(** A match leaves alone the captures of the groups it does not
    contain. *)
Lemma steps_frame r s c s' c' (i : nat) :
  steps r s c s' c' -> (1 <= i)%nat -> ~ In i (groups r) ->
  cap c' i = cap c i.
Proof.
  intros H Hi. induction H as
      [s c|p a s c H|r1 r2 s c s1 c1 s2 c2 _ IH1 _ IH2
      |r1 r2 s c s' c' _ IH|r1 r2 s c s' c' _ IH
      |r s c|r s c s' c' _ IH
      |r s c|r s c s1 c1 s2 c2 _ IH1 _ IH2
      |j r s c s' c' _ IH];
    simpl; intros Hn; try reflexivity;
    try (rewrite in_app_iff in Hn); auto.
  - rewrite IH2, IH1; auto.
  - rewrite IH2, IH1; auto.
  - rewrite cap_set_cap_other; [|assumption|intros ->; apply Hn; now left].
    apply IH; auto.
Qed.

Lemma steps_length r s c s' c' :
  steps r s c s' c' -> length c' = length c.
Proof.
  induction 1; try reflexivity; try congruence.
  now rewrite length_set_cap.
Qed.

Lemma steps_no_groups r s c s' c' :
  steps r s c s' c' -> groups r = [] -> c' = c.
Proof.
  intros H. induction H as
      [s c|p a s c H|r1 r2 s c s1 c1 s2 c2 _ IH1 _ IH2
      |r1 r2 s c s' c' _ IH|r1 r2 s c s' c' _ IH
      |r s c|r s c s' c' _ IH
      |r s c|r s c s1 c1 s2 c2 _ IH1 _ IH2
      |j r s c s' c' _ IH];
    simpl; intros Hg; try reflexivity; auto; try discriminate.
  - apply app_eq_nil in Hg as [H1 H2]. rewrite IH2, IH1; auto.
  - apply app_eq_nil in Hg as [H1 H2]. auto.
  - apply app_eq_nil in Hg as [H1 H2]. auto.
  - rewrite IH2, IH1; auto.
Qed.

(** A star over a class consumes a run of the class. *)
Lemma steps_Star_Cls (p : N -> bool) s c s' c' :
  steps (Star (Cls p)) s c s' c' ->
  c' = c /\ exists w, s = w ++ s' /\ all_in p w.
Proof.
  remember (Star (Cls p)) as r eqn:Er. induction 1; try discriminate.
  - split; [reflexivity|]. exists []. split; [reflexivity|constructor].
  - injection Er as ->. specialize (IHsteps2 eq_refl).
    destruct IHsteps2 as [-> (w & -> & Hw)].
    inversion H; subst. split; [reflexivity|].
    exists (a :: w). split; [reflexivity|]. now constructor.
Qed.

Section MatcherSteps.

Variable R : Type.
Implicit Types (k : cont R) (s t w : jsstring) (c : caps).

Lemma m_Seq r1 r2 s c k :
  m (Seq r1 r2) s c k = m r1 s c (fun s' c' => m r2 s' c' k).
Proof. reflexivity. Qed.

Lemma m_Group i r s c k :
  m (Group i r) s c k =
  m r s c (fun s' c' => k s' (set_cap i (consumed s s') c')).
Proof. reflexivity. Qed.

Lemma m_Opt_None r s c k : m (Opt r) s c k = None -> k s c = None.
Proof. simpl. destruct (m r s c _); [discriminate|trivial]. Qed.

(** A greedy run of a class inside a group captures the run. *)
Lemma m_Group_Plus_greedy (i : nat) (p : N -> bool) k (x : R) w t c :
  w <> [] -> all_in p w -> stops p t ->
  k t (set_cap i w c) = Some x ->
  m (Group i (Plus (Cls p))) (w ++ t) c k = Some x.
Proof.
  intros Hne Hw Ht Hk. rewrite m_Group.
  apply m_Plus_greedy; try assumption. now rewrite consumed_app.
Qed.

(** Both version patterns start with white space and [v]s, which a
    match may take or leave, but never past what follows them. *)
Lemma version_prefix_sound (rest : regex) s c k (x : R) :
  m (version_prefix rest) s c k = Some x ->
  exists w s', s = w ++ s' /\ none_in is_digit w /\ m rest s' c k = Some x.
Proof.
  unfold version_prefix. intros H.
  rewrite m_Seq in H. apply m_sound in H as (s1 & c1 & H1 & H).
  rewrite m_Seq in H. apply m_sound in H as (s2 & c2 & H2 & H).
  rewrite m_Seq in H. apply m_sound in H as (s3 & c3 & H3 & H).
  apply steps_Star_Cls in H1 as [-> (w1 & -> & Hw1)].
  apply steps_Star_Cls in H2 as [-> (w2 & -> & Hw2)].
  apply steps_Star_Cls in H3 as [-> (w3 & -> & Hw3)].
  exists (w1 ++ w2 ++ w3), s3. split; [now rewrite <- !app_assoc|].
  split; [|assumption].
  unfold none_in, all_in in *. rewrite !Forall_app. repeat split.
  - eapply Forall_impl; [|exact Hw1]. intros a Ha.
    destruct (is_digit a) eqn:E; [|reflexivity].
    apply digit_not_space in E. congruence.
  - eapply Forall_impl; [|exact Hw2]. intros a Ha.
    unfold is_v_or_eq in Ha. unfold is_digit, in_range.
    apply orb_true_iff in Ha as [Ha|Ha]; apply N.eqb_eq in Ha; now subst.
  - eapply Forall_impl; [|exact Hw3]. intros a Ha.
    destruct (is_digit a) eqn:E; [|reflexivity].
    apply digit_not_space in E. congruence.
Qed.

End MatcherSteps.

Lemma exec_here (r : regex) (s s' : jsstring) (c : caps) :
  match_here r s = Some (c, s') -> exec r s = Some c.
Proof. intros H. destruct s; simpl; now rewrite H. Qed.

Lemma exec_next (r : regex) (a : N) (s : jsstring) :
  match_here r (a :: s) = None -> exec r (a :: s) = exec r s.
Proof. intros H. simpl. now rewrite H. Qed.

Lemma stops_or_starts (p : N -> bool) (t : jsstring) : stops p t \/ starts p t.
Proof.
  destruct t as [|a t]; [now left|]. simpl. destruct (p a); [now right|now left].
Qed.

Lemma starts_stops (p q : N -> bool) (t : jsstring) :
  (forall a, p a = true -> q a = false) -> starts p t -> stops q t.
Proof. intros H. destruct t as [|a t]; simpl; auto. Qed.

Lemma digit_not_v_or_eq (a : N) : is_digit a = true -> is_v_or_eq a = false.
Proof.
  unfold is_digit, in_range, is_v_or_eq. intros H.
  apply andb_true_iff in H as [H1 H2].
  apply N.leb_le in H1. apply N.leb_le in H2.
  apply orb_false_iff; split; apply N.eqb_neq; lia.
Qed.

(** Where a string first meets the class [p] is determined. *)
Lemma first_in_unique (p : N -> bool) (w q s t : jsstring) :
  none_in p w -> none_in p q -> starts p s -> starts p t ->
  w ++ s = q ++ t -> w = q /\ s = t.
Proof.
  revert q. induction w as [|a w IH]; intros q Hw Hq Hs Ht E.
  - destruct q as [|b q]; [now split|]. simpl in E. subst s.
    inversion Hq; subst. simpl in Hs. congruence.
  - destruct q as [|b q].
    + simpl in E. subst t. inversion Hw; subst. simpl in Ht. congruence.
    + simpl in E. injection E as -> E. inversion Hw; inversion Hq; subst.
      destruct (IH q) as [-> ->]; auto.
Qed.

(** ** The strict pattern *)

Lemma semver_tail_total (s : jsstring) (c : caps) :
  exists c' s', m semver_tail s c final = Some (c', s')
    /\ cap c' 1 = cap c 1 /\ cap c' 2 = cap c 2 /\ cap c' 3 = cap c 3.
Proof.
  destruct (m semver_tail s c final) as [[c' s']|] eqn:E.
  - exists c', s'. split; [reflexivity|].
    apply m_sound in E as (s1 & c1 & Hs & Hk).
    injection Hk as <- <-.
    repeat split; eapply steps_frame; try exact Hs; simpl; lia.
  - exfalso. unfold semver_tail in E. rewrite m_Seq in E.
    apply m_Opt_None in E. apply m_Opt_None in E. discriminate.
Qed.

Lemma semver_numbers_stops (R : Type) (s : jsstring) (c : caps) (k : cont R) :
  stops is_digit s -> m semver_numbers s c k = None.
Proof.
  intros H. unfold semver_numbers, Plus.
  rewrite m_Seq, m_Group, m_Seq. now apply m_Cls_stops.
Qed.

(** On [X.Y.Z] the three numbers are captured whole. *)
Lemma semver_numbers_match (X Y Z post : jsstring) (c : caps) :
  X <> [] -> Y <> [] -> Z <> [] ->
  all_in is_digit X -> all_in is_digit Y -> all_in is_digit Z ->
  stops is_digit post -> length c = 5%nat ->
  exists c' s',
    m semver_numbers (X ++ str "." ++ Y ++ str "." ++ Z ++ post) c final
      = Some (c', s')
    /\ cap c' 1 = Some X /\ cap c' 2 = Some Y /\ cap c' 3 = Some Z.
Proof.
  intros HX HY HZ DX DY DZ Hpost Hc.
  set (c1 := set_cap 1 X c).
  set (c2 := set_cap 2 Y c1).
  set (c3 := set_cap 3 Z c2).
  destruct (semver_tail_total post c3) as (c' & s' & E & E1 & E2 & E3).
  exists c', s'. split.
  - unfold semver_numbers. change (str ".") with [46]. simpl app.
    rewrite m_Seq. apply m_Group_Plus_greedy; try assumption; [reflexivity|].
    fold c1. rewrite !m_Seq, m_Chr.
    apply m_Group_Plus_greedy; try assumption; [reflexivity|].
    fold c2. rewrite !m_Seq, m_Chr.
    apply m_Group_Plus_greedy; try assumption.
  - assert (L1 : length c1 = 5%nat) by (unfold c1; now rewrite length_set_cap).
    assert (L2 : length c2 = 5%nat) by (unfold c2; now rewrite length_set_cap).
    rewrite E1, E2, E3. unfold c3, c2.
    repeat split.
    + rewrite !cap_set_cap_other by lia. apply cap_set_cap_same. lia.
    + rewrite cap_set_cap_other by lia. apply cap_set_cap_same. lia.
    + apply cap_set_cap_same. rewrite length_set_cap. lia.
Qed.

(** The leftmost match of the strict pattern in a text that has no
    digit before [vX.Y.Z]. *)
Lemma exec_semver (pre X Y Z post : jsstring) :
  none_in is_digit pre ->
  X <> [] -> Y <> [] -> Z <> [] ->
  all_in is_digit X -> all_in is_digit Y -> all_in is_digit Z ->
  stops is_digit post ->
  exists c,
    exec semver (pre ++ str "v" ++ X ++ str "." ++ Y ++ str "." ++ Z ++ post)
      = Some c
    /\ cap c 1 = Some X /\ cap c 2 = Some Y /\ cap c 3 = Some Z.
Proof.
  intros Hpre HX HY HZ DX DY DZ Hpost.
  set (rest := X ++ str "." ++ Y ++ str "." ++ Z ++ post).
  destruct (semver_numbers_match X Y Z post (repeat None 5)
              HX HY HZ DX DY DZ Hpost eq_refl)
    as (c & s' & E & C1 & C2 & C3).
  fold rest in E.
  assert (SX : starts is_digit rest).
  { unfold rest. destruct X as [|a X]; [congruence|]. now inversion DX. }
  clearbody rest.
  assert (Hhere : forall q, none_in is_digit q ->
            forall c0 s0, match_here semver (q ++ rest) = Some (c0, s0) ->
            c0 = c).
  { intros q Hq c0 s0 H. unfold match_here, semver in H.
    apply version_prefix_sound in H as (w & s3 & Es & Hw & H).
    destruct (stops_or_starts is_digit s3) as [S3|S3].
    - rewrite semver_numbers_stops in H by assumption. discriminate.
    - destruct (first_in_unique is_digit w q s3 rest Hw Hq S3 SX) as [-> ->];
        [now symmetry|].
      change (ngroups (version_prefix semver_numbers)) with 5%nat in H.
      congruence. }
  assert (Hv : match_here semver (str "v" ++ rest) = Some (c, s')).
  { unfold match_here, semver, version_prefix.
    change (ngroups _) with 5%nat.
    rewrite m_Seq.
    apply m_Star_greedy with (w := []); [constructor|reflexivity|].
    rewrite m_Seq.
    apply m_Star_greedy with (w := str "v").
    - repeat constructor.
    - eapply starts_stops; [exact digit_not_v_or_eq|exact SX].
    - rewrite m_Seq.
      apply m_Star_greedy with (w := []); [constructor| |exact E].
      eapply starts_stops; [exact digit_not_space|exact SX]. }
  exists c. split; [|auto].
  induction pre as [|a pre IH].
  - exact (exec_here _ _ _ _ Hv).
  - inversion Hpre as [|? ? Ha Hpre']; subst.
    destruct (match_here semver ((a :: pre) ++ str "v" ++ rest))
      as [[c0 s0]|] eqn:E0.
    + rewrite (exec_here _ _ _ _ E0). f_equal.
      apply (Hhere ((a :: pre) ++ str "v")) with (s0 := s0).
      * apply Forall_app. split; [assumption|repeat constructor].
      * rewrite <- app_assoc. exact E0.
    + simpl app in *. rewrite exec_next by assumption. now apply IH.
Qed.

(** ** [version] *)

Lemma component_digits (c : caps) (i : nat) (w : jsstring) :
  cap c i = Some w -> w <> [] -> all_in is_digit w -> component c i = w.
Proof.
  intros E Hne Hw. unfold component. rewrite E.
  destruct w as [|a w]; [congruence|].
  apply trim_none_in. now apply none_in_digits_space.
Qed.

Lemma version_loop_first (r : regex) (rest : list regex) (content : jsstring)
    (mt : caps) (x : N) (v : jsstring) :
  exec r content = Some mt ->
  join (str ".") [component mt 1; component mt 2; component mt 3] = x :: v ->
  version_loop (r :: rest) content None = Some (x :: v).
Proof.
  intros E J. simpl. unfold version_some. rewrite E, J. reflexivity.
Qed.

(** A match can only start where [no_match_in] says so. *)
Lemma exec_skip (r : regex) (pre rest : jsstring) :
  no_match_in r pre rest = true -> exec r (pre ++ rest) = exec r rest.
Proof.
  induction pre as [|a pre IH]; intros H; [reflexivity|].
  cbn [no_match_in] in H.
  destruct (match_here r ((a :: pre) ++ rest)) eqn:E; [discriminate|].
  simpl app in *. rewrite exec_next by exact E. now apply IH.
Qed.

Lemma join_three (a b c : jsstring) :
  exists x v, join (str ".") [a; b; c] = x :: v.
Proof.
  destruct a as [|x a]; simpl; eauto.
Qed.

(** C5, as the code has it.  First: a text that contains [vX.Y.Z] with
    no digit right after [Z] gives [X.Y.Z], provided no match of the
    strict pattern starts earlier in the text, other than in the stretch
    without digits that stands right before the [v].  Second, in
    general: the result is made of the captures of the leftmost match of
    the strict pattern, wherever that match starts. *)
Theorem version_strict :
  (forall pre q X Y Z post : jsstring,
      no_match_in semver pre
        (q ++ str "v" ++ X ++ str "." ++ Y ++ str "." ++ Z ++ post) = true ->
      none_in is_digit q ->
      X <> [] -> Y <> [] -> Z <> [] ->
      all_in is_digit X -> all_in is_digit Y -> all_in is_digit Z ->
      stops is_digit post ->
      version (Some new_Update)
        (Some (pre ++ q ++ str "v" ++ X ++ str "." ++ Y ++ str "." ++ Z
               ++ post))
      = Ok (Some (X ++ str "." ++ Y ++ str "." ++ Z)))
  /\ (forall (pre rest rest' : jsstring) (c : caps),
      no_match_in semver pre rest = true ->
      match_here semver rest = Some (c, rest') ->
      version (Some new_Update) (Some (pre ++ rest))
      = Ok (Some (join (str ".")
                    [component c 1; component c 2; component c 3]))).
Proof.
  split.
  - intros pre q X Y Z post Hpre Hq HX HY HZ DX DY DZ Hpost.
    destruct (exec_semver q X Y Z post Hq HX HY HZ DX DY DZ Hpost)
      as (c & E & C1 & C2 & C3).
    rewrite <- (exec_skip _ _ _ Hpre) in E.
    unfold version. simpl to_string. simpl strict. simpl loose. do 2 f_equal.
    destruct X as [|x X]; [congruence|].
    apply version_loop_first with (mt := c); [exact E|].
    rewrite (component_digits _ _ _ C1), (component_digits _ _ _ C2),
      (component_digits _ _ _ C3) by assumption.
    reflexivity.
  - intros pre rest rest' c Hpre H.
    apply exec_here in H. rewrite <- (exec_skip _ _ _ Hpre) in H.
    destruct (join_three (component c 1) (component c 2) (component c 3))
      as (x & v & J).
    unfold version. simpl to_string. simpl strict. simpl loose.
    rewrite J. do 2 f_equal.
    now apply version_loop_first with (mt := c).
Qed.

Lemma version_strict_witness :
  no_match_in semver (str "(c) 2012 h5")
    (str "bp " ++ str "v" ++ str "4" ++ str "." ++ str "0" ++ str "."
     ++ str "1" ++ str " ") = true
  /\ none_in is_digit (str "bp ")
  /\ stops is_digit (str " ")
  /\ version (Some new_Update)
       (Some (str "(c) 2012 h5" ++ str "bp " ++ str "v" ++ str "4" ++ str "."
              ++ str "0" ++ str "." ++ str "1" ++ str " "))
     = Ok (Some (str "4" ++ str "." ++ str "0" ++ str "." ++ str "1"))
  /\ no_match_in semver (str "x") (str " 1.0.0 v2.3.4") = true
  /\ match_here semver (str " 1.0.0 v2.3.4")
     = Some ([Some (str "1"); Some (str "0"); Some (str "0"); None; None],
             str " v2.3.4")
  /\ version (Some new_Update) (Some (str "x" ++ str " 1.0.0 v2.3.4"))
     = Ok (Some (str "1.0.0")).
Proof.
  split; [reflexivity|]. split; [repeat constructor|]. split; [reflexivity|].
  split.
  - apply (proj1 version_strict);
      solve [reflexivity | repeat constructor | discriminate].
  - split; [reflexivity|]. split; [reflexivity|].
    apply (proj2 version_strict (str "x") (str " 1.0.0 v2.3.4")
             (str " v2.3.4")
             [Some (str "1"); Some (str "0"); Some (str "0"); None; None]);
      reflexivity.
Defined.

(** C5 as stated fails.  The text [1.0.0 v2.3.4] contains [v2.3.4], and
    [version] gives [1.0.0], the match that comes first.  The text
    [v1.2.34] contains [v1.2.3], and [version] gives [1.2.34]: the
    digits are taken whole. *)
Lemma version_substring_counterexample :
  ((exists pre post,
       str "1.0.0 v2.3.4"
       = pre ++ str "v" ++ str "2" ++ str "." ++ str "3" ++ str "." ++ str "4"
             ++ post)
   /\ version (Some new_Update) (Some (str "1.0.0 v2.3.4"))
      = Ok (Some (str "1.0.0"))
   /\ str "1.0.0" <> str "2" ++ str "." ++ str "3" ++ str "." ++ str "4")
  /\ ((exists pre post,
        str "v1.2.34"
        = pre ++ str "v" ++ str "1" ++ str "." ++ str "2" ++ str "." ++ str "3"
              ++ post)
      /\ version (Some new_Update) (Some (str "v1.2.34"))
         = Ok (Some (str "1.2.34"))
      /\ str "1.2.34" <> str "1" ++ str "." ++ str "2" ++ str "." ++ str "3").
Proof.
  split.
  - split; [exists (str "1.0.0 "), []; reflexivity|].
    split; [vm_compute; reflexivity|vm_compute; discriminate].
  - split; [exists [], (str "4"); reflexivity|].
    split; [vm_compute; reflexivity|vm_compute; discriminate].
Qed.

(** ** [githubRE] and [raw] *)

Lemma m_Chr_other (R : Type) (a b : N) (t : jsstring) (c : caps) (k : cont R) :
  a <> b -> m (Chr a) (b :: t) c k = None.
Proof.
  intros H. simpl. destruct (N.eqb_spec a b); [contradiction|reflexivity].
Qed.

Lemma m_Star_greedy_end (R : Type) (p : N -> bool) (k : cont R) (x : R)
    (w : jsstring) (c : caps) :
  all_in p w -> k [] c = Some x -> m (Star (Cls p)) w c k = Some x.
Proof.
  intros Hw Hk. rewrite <- (app_nil_r w).
  now apply m_Star_greedy.
Qed.

Lemma consumed_all (w : jsstring) : consumed w [] = w.
Proof. rewrite <- (app_nil_r w) at 1. apply consumed_app. Qed.

(** No match of [githubRE] starts at a code unit other than [g]. *)
Lemma githubRE_needs_g (a : N) (s : jsstring) :
  a <> 103 -> match_here githubRE (a :: s) = None.
Proof.
  intros H. unfold match_here, githubRE.
  change (Lit (str "github")) with (Seq (Chr 103) (Lit (str "ithub"))).
  rewrite !m_Seq. apply m_Chr_other. congruence.
Qed.

(** The match of [githubRE] on a blob address. *)
Lemma githubRE_blob (owner repo branch file : jsstring) :
  owner <> [] -> repo <> [] -> branch <> [] ->
  all_in is_github_name owner -> all_in is_github_name repo ->
  all_in is_github_name branch -> none_in is_line_terminator file ->
  match_here githubRE
    (str "github.com/" ++ owner ++ str "/" ++ repo ++ str "/blob/"
     ++ branch ++ str "/" ++ file)
  = Some ([Some owner; Some repo; Some (str "/" ++ branch); Some file], []).
Proof.
  intros Ho Hr Hb Do Dr Db Df.
  change (str "github.com/" ++ owner ++ str "/" ++ repo ++ str "/blob/"
          ++ branch ++ str "/" ++ file)
    with (str "github" ++ 46 :: str "com" ++ 47 :: owner ++ 47 :: repo
          ++ 47 :: str "blob" ++ 47 :: branch ++ 47 :: file).
  unfold match_here, githubRE. change (ngroups _) with 4%nat.
  rewrite m_Seq, m_Lit, m_Seq. unfold Dot at 1.
  rewrite m_Cls by reflexivity.
  rewrite m_Seq, m_Lit, m_Seq, m_Chr, m_Seq.
  apply m_Group_Plus_greedy; try assumption; [reflexivity|].
  rewrite m_Seq, m_Chr, m_Seq.
  apply m_Group_Plus_greedy; try assumption; [reflexivity|].
  rewrite m_Seq, m_Chr, m_Seq, m_Lit, m_Seq, m_Group, m_Seq, m_Chr.
  apply m_Plus_greedy; try assumption; [reflexivity|].
  change (47 :: branch ++ 47 :: file) with ((47 :: branch) ++ 47 :: file).
  rewrite consumed_app, m_Seq, m_Chr, m_Group.
  apply m_Star_greedy_end.
  - unfold all_in, none_in in *. eapply Forall_impl; [|exact Df].
    intros a Ha. simpl. now rewrite Ha.
  - rewrite consumed_all. reflexivity.
Qed.

Lemma exec_githubRE_blob (pre owner repo branch file : jsstring) :
  none_in (N.eqb 103) pre ->
  owner <> [] -> repo <> [] -> branch <> [] ->
  all_in is_github_name owner -> all_in is_github_name repo ->
  all_in is_github_name branch -> none_in is_line_terminator file ->
  exec githubRE
    (pre ++ str "github.com/" ++ owner ++ str "/" ++ repo ++ str "/blob/"
     ++ branch ++ str "/" ++ file)
  = Some [Some owner; Some repo; Some (str "/" ++ branch); Some file].
Proof.
  intros Hpre Ho Hr Hb Do Dr Db Df.
  induction pre as [|a pre IH].
  - eapply exec_here. now apply githubRE_blob.
  - inversion Hpre as [|? ? Ha Hpre']; subst.
    simpl app. rewrite exec_next.
    + now apply IH.
    + apply githubRE_needs_g. apply N.eqb_neq in Ha. congruence.
Qed.

(** C7: for every blob address [...github.com/owner/repo/blob/branch/file],
    with [owner], [repo] and [branch] made of the pattern's name
    characters, [file] free of line terminators, and no [g] before
    [github.com] (as in [https://] or [http://www.]), [raw] gives
    [https://raw.github.com/owner/repo/branch/file]. *)
Theorem raw_blob (pre owner repo branch file : jsstring) :
  none_in (N.eqb 103) pre ->
  owner <> [] -> repo <> [] -> branch <> [] ->
  all_in is_github_name owner -> all_in is_github_name repo ->
  all_in is_github_name branch -> none_in is_line_terminator file ->
  raw (pre ++ str "github.com/" ++ owner ++ str "/" ++ repo ++ str "/blob/"
       ++ branch ++ str "/" ++ file)
  = Ok (str "https://raw.github.com/" ++ owner ++ str "/" ++ repo ++ str "/"
        ++ branch ++ str "/" ++ file).
Proof.
  intros Hpre Ho Hr Hb Do Dr Db Df. unfold raw.
  rewrite exec_githubRE_blob by assumption. reflexivity.
Qed.

Lemma raw_blob_witness :
  acme_blob
  = str "https://" ++ str "github.com/" ++ str "acme" ++ str "/"
    ++ str "widgets" ++ str "/blob/" ++ str "main" ++ str "/" ++ str "src/a.js"
  /\ raw acme_blob = Ok (str "https://raw.github.com/acme/widgets/main/src/a.js").
Proof.
  split; [reflexivity|].
  apply (raw_blob (str "https://") (str "acme") (str "widgets") (str "main")
           (str "src/a.js"));
    solve [repeat constructor | discriminate].
Defined.

(** ** The loose pattern *)

Ltac inv H := inversion H; subst; clear H.

(** Facts about the classes, by arithmetic on code units. *)
Ltac by_code_units :=
  unfold is_tag_start, is_tag_char, is_dash_or_space, is_word, is_alpha,
    is_digit, is_v_or_eq, is_space, in_range in *;
  repeat match goal with
         | H : _ = true |- _ =>
             rewrite ?orb_true_iff, ?andb_true_iff, ?N.leb_le, ?N.eqb_eq in H;
             revert H
         end;
  intros; lia.

Lemma tag_start_not_space (a : N) : is_tag_start a = true -> is_space a = false.
Proof.
  intros H. destruct (is_space a) eqn:E; [exfalso|reflexivity]. by_code_units.
Qed.

Lemma tag_char_not_space (a : N) : is_tag_char a = true -> is_space a = false.
Proof.
  intros H. destruct (is_space a) eqn:E; [exfalso|reflexivity]. by_code_units.
Qed.

Lemma dash_or_space_cases (x : N) :
  is_dash_or_space x = true -> x = 45 \/ is_space x = true.
Proof.
  unfold is_dash_or_space. intros H. apply orb_true_iff in H as [H|H].
  - left. now apply N.eqb_eq.
  - now right.
Qed.

Lemma trim_then_space (a x : N) :
  is_space a = false -> is_space x = true -> trim [a; x] = [a].
Proof.
  intros Ha Hx. unfold trim. rewrite trim_left_keep by assumption.
  simpl rev. unfold trim_left. simpl. rewrite Hx, Ha. reflexivity.
Qed.

Lemma exec_some (r : regex) (s : jsstring) (c : caps) :
  exec r s = Some c -> exists t s', match_here r t = Some (c, s').
Proof.
  induction s as [|a s IH]; simpl; intros H.
  - destruct (match_here r []) as [[c' s']|] eqn:E; [|discriminate].
    injection H as ->. now exists [], s'.
  - destruct (match_here r (a :: s)) as [[c' s']|] eqn:E.
    + injection H as ->. now exists (a :: s), s'.
    + now apply IH.
Qed.

Lemma consumed_cons1 (a : N) (t : jsstring) : consumed (a :: t) t = [a].
Proof. exact (consumed_app [a] t). Qed.

Lemma consumed_cons2 (a b : N) (t : jsstring) :
  consumed (a :: b :: t) t = [a; b].
Proof. exact (consumed_app [a; b] t). Qed.

Lemma consumed_cons_app (a : N) (w t : jsstring) :
  consumed (a :: w ++ t) t = a :: w.
Proof. exact (consumed_app (a :: w) t). Qed.

Ltac inv_steps :=
  repeat match goal with
         | H : steps (Seq _ _) _ _ _ _ |- _ => inv H
         | H : steps (Group _ _) _ _ _ _ |- _ => inv H
         | H : steps (Cls _) _ _ _ _ |- _ => inv H
         | H : steps (Opt _) _ _ _ _ |- _ => inv H
         | H : steps (Star (Cls _)) _ _ _ _ |- _ =>
             apply steps_Star_Cls in H as [-> (? & -> & ?)]
         end.

(** What a match of the loose pattern captures: one digit; a digit and
    perhaps a dash or a white space; and, when a tag follows, the tag. *)
Lemma steps_sillyver_numbers (s s' : jsstring) (c : caps) :
  steps sillyver_numbers s (repeat None 3) s' c ->
  exists major minor sep,
    is_digit major = true /\ is_digit minor = true
    /\ (sep = [] \/ exists x, sep = [x] /\ is_dash_or_space x = true)
    /\ cap c 1 = Some [major] /\ cap c 2 = Some (minor :: sep)
    /\ (cap c 3 = None
        \/ exists a w, cap c 3 = Some (a :: w)
                       /\ is_tag_start a = true /\ all_in is_tag_char w).
Proof.
  unfold sillyver_numbers, tag, Chr. intros H.
  inv_steps.
  all: rewrite ?consumed_cons1, ?consumed_cons2, ?consumed_cons_app.
  all: simpl set_cap.
  all: match goal with
       | |- context [cap [Some [?a]; Some (?b :: ?sep); _] 1] =>
           exists a, b, sep
       end.
  all: repeat split; try assumption; try reflexivity.
  all: try solve [left; reflexivity
                 | right; eexists; split; [reflexivity|assumption]
                 | right; do 2 eexists; repeat split;
                   try reflexivity; assumption].
Qed.

(** C3, as the code has it: when the strict pattern fails and the loose
    one matches, [version] gives [major.minor.T].  [major] is the one
    digit that the first group of the loose pattern captured; [minor]
    is the second group trimmed, a digit with the dash that may follow
    it (a space captured after the digit is trimmed away); and [T] is
    the tag that the third group captured, or [0] when no tag follows
    the minor. *)
Theorem version_loose (text : jsstring) (c : caps) :
  exec semver text = None -> exec sillyver text = Some c ->
  exists major minor sep dash,
    cap c 1 = Some [major] /\ is_digit major = true
    /\ cap c 2 = Some (minor :: sep) /\ is_digit minor = true
    /\ trim (minor :: sep) = minor :: dash
    /\ (dash = [] \/ dash = str "-")
    /\ match cap c 3 with
       | Some tag =>
           starts is_tag_start tag
           /\ version (Some new_Update) (Some text)
              = Ok (Some ([major] ++ str "." ++ minor :: dash ++ str "."
                          ++ tag))
       | None =>
           version (Some new_Update) (Some text)
           = Ok (Some ([major] ++ str "." ++ minor :: dash ++ str ".0"))
       end.
Proof.
  intros Hs Hl.
  assert (V : version (Some new_Update) (Some text)
              = Ok (Some (join (str ".")
                            [component c 1; component c 2; component c 3]))).
  { unfold version. simpl. unfold version_some. rewrite Hs. simpl.
    rewrite Hl. now destruct (truthy _). }
  apply exec_some in Hl as (t & s' & H).
  unfold match_here, sillyver in H.
  apply version_prefix_sound in H as (w & s3 & _ & _ & H).
  apply m_sound in H as (s4 & c4 & H & F). injection F as -> ->.
  apply steps_sillyver_numbers in H
    as (major & minor & sep & D1 & D2 & Hsep & C1 & C2 & C3).
  assert (E1 : component c 1 = [major]).
  { unfold component. rewrite C1. apply trim_single. now apply digit_not_space. }
  assert (E2 : exists dash, (dash = [] \/ dash = str "-")
                            /\ trim (minor :: sep) = minor :: dash).
  { destruct Hsep as [->|(x & -> & Hx)].
    - exists []. split; [now left|]. apply trim_single.
      now apply digit_not_space.
    - apply dash_or_space_cases in Hx as [->|Hx].
      + exists (str "-"). split; [now right|].
        apply (trim_keep minor 45 []); [now apply digit_not_space|reflexivity].
      + exists []. split; [now left|]. apply trim_then_space; [|assumption].
        now apply digit_not_space. }
  destruct E2 as (dash & Hdash & E2).
  assert (E2' : component c 2 = minor :: dash).
  { unfold component. rewrite C2. exact E2. }
  exists major, minor, sep, dash.
  split; [exact C1|]. split; [exact D1|]. split; [exact C2|].
  split; [exact D2|]. split; [exact E2|]. split; [exact Hdash|].
  rewrite V, E1, E2'. unfold component.
  destruct C3 as [C3|(a & tl & C3 & Ha & Htl)]; rewrite C3.
  - reflexivity.
  - split; [exact Ha|].
    rewrite trim_none_in.
    + reflexivity.
    + constructor; [now apply tag_start_not_space|].
      eapply Forall_impl; [|exact Htl]. apply tag_char_not_space.
Qed.

Lemma version_loose_witness :
  exec semver (str "v1.2- ") = None
  /\ exec sillyver (str "v1.2- ")
     = Some [Some (str "1"); Some (str "2-"); None]
  /\ exists major minor sep dash,
       Some (str "1") = Some [major] /\ is_digit major = true
       /\ Some (str "2-") = Some (minor :: sep) /\ is_digit minor = true
       /\ trim (minor :: sep) = minor :: dash
       /\ (dash = [] \/ dash = str "-")
       /\ version (Some new_Update) (Some (str "v1.2- "))
          = Ok (Some ([major] ++ str "." ++ minor :: dash ++ str ".0")).
Proof.
  split; [reflexivity|]. split; [reflexivity|].
  apply (version_loose (str "v1.2- ")
           [Some (str "1"); Some (str "2-"); None]);
    reflexivity.
Defined.

(** C3 as stated fails: on [v1.2beta] the strict pattern fails, the
    loose one matches, and the third component is the tag [beta], not
    [0]. *)
Lemma version_loose_counterexample :
  exec semver (str "v1.2beta") = None
  /\ exec sillyver (str "v1.2beta")
     = Some [Some (str "1"); Some (str "2"); Some (str "beta")]
  /\ version (Some new_Update) (Some (str "v1.2beta"))
     = Ok (Some (str "1.2.beta"))
  /\ ~ (exists major minor,
           str "1.2.beta" = major ++ str "." ++ minor ++ str ".0").
Proof.
  repeat split; try reflexivity.
  intros (major & minor & E).
  apply (f_equal (@rev N)) in E. rewrite !rev_app_distr in E.
  simpl in E. discriminate E.
Qed.

(** A single digit with no dot after it matches neither pattern. *)
Example version_v3_final :
  version (Some new_Update) (Some (str "v3 final")) = Ok None.
Proof. reflexivity. Qed.

(** ** Choosing the handler *)

(** C4, as the code has it: an address of the GitHub blob shape goes to
    the commit lookup, whether or not it contains [#]; of the others,
    one that contains [#] goes to the selector handler, and the rest to
    the line scanner. *)
Theorem find_provider_order (latest : jsstring) :
  find_provider latest =
  if RegExp.test githubRE latest then Github
  else if contains_char 35 latest then Selector
  else Req.
Proof.
  unfold find_provider.
  destruct (RegExp.test githubRE latest), (contains_char 35 latest);
    reflexivity.
Qed.

(** C4 as stated fails: this address contains [#] and has the blob
    shape, and the commit lookup is chosen. *)
Lemma find_provider_counterexample :
  contains_char 35 (acme_blob ++ str "#L10") = true
  /\ RegExp.test githubRE (acme_blob ++ str "#L10") = true
  /\ find_provider (acme_blob ++ str "#L10") = Github
  /\ Github <> Selector.
Proof. repeat split; try reflexivity. discriminate. Qed.

(** ** [download] and [req] *)

(** C6, as the code has it: [download] passes an error to its callback
    exactly when the request fails or the status is not 200, and it
    hands over the body, with no error, exactly when the status is 200
    and the response carries a body, the empty one too; it is [req] that
    turns an empty download into the error [No content received from]
    the address. *)
Theorem download_contract (env : collaborators) (uri : jsstring)
    (self : Update) :
  ((exists e, observe_download env uri = Downloaded (Some e) None)
   <-> ((exists e, request_get env uri = NetworkError e)
        \/ exists statusCode body,
             request_get env uri = Response statusCode body
             /\ statusCode <> 200%Z))
  /\ (forall b, observe_download env uri = Downloaded None (Some b)
                <-> request_get env uri = Response 200 (Some b))
  /\ (forall err b, observe_download env uri = Downloaded err (Some b) ->
        err = None)
  /\ (request_get env uri = Response 200 (Some []) ->
        observe_req env (Some self) uri
        = Fetched (Some (new_Error (str "No content received from " ++ uri)))
            VUndefined None).
Proof.
  unfold observe_download, observe_req, req, download.
  destruct (request_get env uri) as [err|statusCode body] eqn:E.
  - split; [|split; [|split]].
    + split; [intros _; left; now exists err|intros _; now exists err].
    + intros b. split; discriminate.
    + intros err0 b H. discriminate H.
    + discriminate.
  - destruct (Z.eqb_spec statusCode 200) as [->|Hne]; simpl.
    + split; [|split; [|split]].
      * split.
        -- intros [e H]. destruct body; discriminate.
        -- intros [[e H]|(sc & b & H & Hne)]; [discriminate|].
           injection H as <- _. congruence.
      * intros b. split.
        -- intros H. destruct body as [b'|]; [|discriminate H].
           injection H as ->. reflexivity.
        -- intros H. injection H as ->. reflexivity.
      * intros err0 b H. destruct body as [b'|]; [|discriminate H].
        now injection H as <- _.
      * intros H. injection H as ->. reflexivity.
    + split; [|split; [|split]].
      * split; [intros _; right; now exists statusCode, body|].
        intros _. eexists. reflexivity.
      * intros b. split; [discriminate|].
        intros H. injection H as -> _. congruence.
      * intros err0 b H. discriminate H.
      * intros H. injection H as -> _. congruence.
Qed.

Lemma download_contract_witness :
  observe_download (serving []) (str "http://x/y.js") = Downloaded None (Some [])
  /\ observe_req (serving []) (Some new_Update) (str "http://x/y.js")
     = Fetched
         (Some (new_Error (str "No content received from http://x/y.js")))
         VUndefined None.
Proof.
  destruct (download_contract (serving []) (str "http://x/y.js") new_Update)
    as (_ & H1 & _ & H2).
  split; [apply H1; reflexivity|apply H2; reflexivity].
Defined.

(** C6 as stated fails: on status 200 with an empty body, [download]
    reports no error and hands the empty string to its callback. *)
Lemma download_empty_counterexample :
  request_get (serving []) (str "http://x/y.js") = Response 200 (Some [])
  /\ observe_download (serving []) (str "http://x/y.js")
     = Downloaded None (Some []).
Proof. split; reflexivity. Qed.

(** ** [req] *)

Lemma split_from_not_nil (r : regex) (s cur : jsstring) (skip : nat) :
  split_from r skip cur s <> [].
Proof.
  revert skip cur. induction s as [|a s IH]; intros skip cur;
    [discriminate|].
  cbn [split_from].
  destruct skip; [|apply IH].
  destruct (match_here r (a :: s)) as [[c rest]|]; [|apply IH].
  remember (length (a :: s) - length rest)%nat as n eqn:En. clear En.
  destruct n; [destruct cur|]; try apply IH; discriminate.
Qed.

(** Whatever is downloaded, the first line scanned ends [req]: the
    local [version] is called without a receiver. *)
Lemma req_throws_on_first_line (env : collaborators) (self : Update)
    (uri text : jsstring) :
  request_get env uri = Response 200 (Some text) -> text <> [] ->
  (1 <= lines self)%Z ->
  observe_req env (Some self) uri
  = SawUncaught (type_error "Cannot read property 'strict' of undefined").
Proof.
  intros E Hne Hl. unfold observe_req, req, download. rewrite E. simpl.
  destruct text as [|a text]; [congruence|].
  unfold split, splice0.
  destruct (split_from line_separator 0 [] (a :: text)) as [|line rest] eqn:S.
  - now apply split_from_not_nil in S.
  - destruct (Z.to_nat (lines self)) as [|n] eqn:En; [lia|]. reflexivity.
Qed.

(** [provider(bundle.latest, test)] with the line scanner as provider
    throws before anything is requested. *)
Lemma call_provider_Req (env : collaborators) (uri : jsstring)
    (fn : fetched task) (w : world) :
  call_provider env Req uri fn w
  = (w, Thrown (type_error "Cannot read property 'lines' of undefined")).
Proof. reflexivity. Qed.

(** C1 at the failing input: eleven lines and [v1.2.3] on line 12,
    scanned with [lines = 15].  [req] does not deliver a version: the
    scan throws on the first line.  And the window would not reach line
    12 in any case: the capturing group of the separator puts an entry
    of its own after every line, so that line 12 is entry 22 of the
    array and the first 15 entries are the lines 1 to 8. *)
Theorem req_line_12_of_15 :
  observe_req (serving twelve_lines)
    (Some {| strict := semver; loose := sillyver; lines := 15 |})
    (str "http://x/y.js")
  = SawUncaught (type_error "Cannot read property 'strict' of undefined")
  /\ version (Some new_Update) (Some (str "v1.2.3")) = Ok (Some (str "1.2.3"))
  /\ nth_error (split line_separator twelve_lines) 22 = Some (Some (str "v1.2.3"))
  /\ splice0 15 (split line_separator twelve_lines)
     = [Some (str "x"); None; Some (str "x"); None; Some (str "x"); None;
        Some (str "x"); None; Some (str "x"); None; Some (str "x"); None;
        Some (str "x"); None; Some (str "x")].
Proof. repeat split; vm_compute; reflexivity. Qed.

(** ** The orchestrator *)

Lemma strict_equal_refl (v : value) : strict_equal v v = true.
Proof. destruct v; simpl; auto using jsstring_eqb_refl. Qed.

Lemma lookup_assign_same (T : Type) (key : jsstring) (v : T)
    (obj : list (jsstring * T)) :
  lookup key (assign key v obj) = Some v.
Proof.
  induction obj as [|[k x] obj IH]; simpl.
  - now rewrite jsstring_eqb_refl.
  - destruct (jsstring_eqb k key) eqn:E; simpl; now rewrite E.
Qed.

(** C8: when the handler chosen for an entry resolves a version, and
    that version is the recorded one, the task of the entry calls back
    without an error and leaves the whole state as it was: nothing is
    written, nothing is logged, and the package, the entry included, is
    untouched. *)
Theorem unchanged_when_versions_equal (env : collaborators) (key : jsstring)
    (w : world) (bundle : Bundle.t) (latest : jsstring) (version : value)
    (content : option jsstring) :
  lookup key (Package.bundle (package w)) = Some bundle ->
  Bundle.latest bundle = Some latest -> latest <> [] ->
  (forall fn, call_provider env (find_provider latest) latest fn w
              = fn None version content w) ->
  truthy version = true ->
  version = Bundle.version bundle ->
  testing env key w = (w, Called None).
Proof.
  intros Hb Hl Hne Hp Ht Hv. unfold testing. rewrite Hb, Hl.
  destruct latest as [|a latest]; [congruence|].
  rewrite Hp. unfold test. rewrite Ht, Hb. simpl.
  rewrite Hv, strict_equal_refl. reflexivity.
Qed.

Lemma unchanged_when_versions_equal_witness :
  testing a_is_current (str "a") two_bundles = (two_bundles, Called None).
Proof.
  apply (unchanged_when_versions_equal a_is_current (str "a") two_bundles
           (entry "1" "https://github.com/acme/a/blob/main/a.js" "/p/a.js")
           (str "https://github.com/acme/a/blob/main/a.js")
           (VString (str "1")) None);
    try reflexivity; try discriminate.
Defined.

(** Of two bundles, one current and one out of date, the run writes the
    manifest and the file of the second and nothing else. *)
Example execute_one_of_two :
  let run := execute a_is_current no_completion two_bundles in
  snd run = Returned
  /\ lookup (str "a") (Package.bundle (package (fst run)))
     = lookup (str "a") (Package.bundle (package two_bundles))
  /\ trace (fst run)
     = [Notice (str "%s is out of date, latest version is %s") (str "b")
          [VString (str "2")];
        Wrote (str "/p/package.json")
          (Stringified
             (JObject [(str "bundle",
                        JObject [(str "a", entry_doc "1");
                                 (str "b", entry_doc "2")])]));
        Wrote (str "/p/b.js") (Chars (str "new"));
        Notice (str "sucessfully updated %s from version %s to %s") (str "b")
          [VString (str "1"); VString (str "2")]].
Proof. repeat split; vm_compute; reflexivity. Qed.

Lemma location_update_bundle (key : jsstring) (f : Bundle.t -> Bundle.t)
    (w : world) :
  Package.location (package (update_bundle key f w))
  = Package.location (package w).
Proof.
  unfold update_bundle, with_package. cbn [package].
  destruct (lookup key (Package.bundle (package w))); reflexivity.
Qed.

(** [done] on an entry without a recorded version: the writes are made,
    and then reading [current.grey] throws. *)
Lemma done_steps_unversioned (env : collaborators) (key : jsstring)
    (version : value) (content : option jsstring) (w : world)
    (bundle : Bundle.t) (code code' : json) :
  lookup key (Package.bundle (package w)) = Some bundle ->
  JSON_parse (Package.source (package w)) = Ok code ->
  assign_version code key version = Ok code' ->
  Bundle.version bundle = VUndefined ->
  done env key version None content w
  = let w3 :=
      with_package (Package.set_source (JSON_stringify code'))
        (update_bundle key (Bundle.set_content content)
           (update_bundle key (Bundle.set_version version) w)) in
    let run := write_files env (Package.location (package w))
                 (JSON_stringify code') (Bundle.meta_location bundle)
                 content w3 in
    (fst run,
     Uncaught (type_error "Cannot read property 'grey' of undefined")).
Proof.
  intros Hb Hp Ha Hv. unfold done. rewrite Hb, Hp, Ha. cbv zeta.
  change (Package.location
            (package
               (with_package (Package.set_source (JSON_stringify code'))
                  (update_bundle key (Bundle.set_content content)
                     (update_bundle key (Bundle.set_version version) w)))))
    with (Package.location
            (package (update_bundle key (Bundle.set_content content)
                        (update_bundle key (Bundle.set_version version) w)))).
  rewrite !location_update_bundle.
  destruct (write_files _ _ _ _ _ _) as [w4 err'].
  rewrite Hv. reflexivity.
Qed.

(** What [done] leaves in memory, whatever the writes do: the entry has
    the new version and content and is otherwise as before, and the
    package has the new source. *)
Lemma done_memory (env : collaborators) (key : jsstring) (version : value)
    (content : option jsstring) (w : world) (bundle : Bundle.t)
    (code code' : json) :
  lookup key (Package.bundle (package w)) = Some bundle ->
  JSON_parse (Package.source (package w)) = Ok code ->
  assign_version code key version = Ok code' ->
  let run := done env key version None content w in
  (exists b',
      lookup key (Package.bundle (package (fst run))) = Some b'
      /\ Bundle.version b' = version /\ Bundle.content b' = content
      /\ Bundle.latest b' = Bundle.latest bundle
      /\ Bundle.download b' = Bundle.download bundle
      /\ Bundle.meta_location b' = Bundle.meta_location bundle)
  /\ Package.source (package (fst run)) = JSON_stringify code'.
Proof.
  intros Hb Hp Ha. cbv zeta. unfold done. rewrite Hb, Hp, Ha.
  unfold update_bundle, with_package. simpl. rewrite Hb. simpl.
  rewrite lookup_assign_same. simpl.
  unfold write_files. simpl.
  destruct (writeFileSync env (Package.location (package w)));
    [|destruct (writeFileSync env (Bundle.meta_location bundle))];
    destruct (Bundle.version bundle); simpl; rewrite lookup_assign_same;
    (split; [eexists; split; [reflexivity|]; simpl; auto 6|reflexivity]).
Qed.

(** C9 does not hold of the code: for an entry that has no recorded
    version, [done] never reports.  The exception of a write is caught,
    but reading [current.grey] of the missing version then throws, so
    [cb] is not called, with the exception or without; the writes made
    so far stay, the notice of success is not logged, and the entry and
    the package keep the new version, content and source. *)
Theorem done_unversioned_never_reports (env : collaborators) (key : jsstring)
    (version : value) (content : option jsstring) (w : world)
    (bundle : Bundle.t) (code code' : json) :
  lookup key (Package.bundle (package w)) = Some bundle ->
  JSON_parse (Package.source (package w)) = Ok code ->
  assign_version code key version = Ok code' ->
  Bundle.version bundle = VUndefined ->
  let manifest := Wrote (Package.location (package w)) (JSON_stringify code') in
  let file := Wrote (Bundle.meta_location bundle) (Chars (to_string content)) in
  let run := done env key version None content w in
  snd run = Uncaught (type_error "Cannot read property 'grey' of undefined")
  /\ (forall err, snd run <> Called err)
  /\ trace (fst run)
     = trace w
       ++ match writeFileSync env (Package.location (package w)),
                writeFileSync env (Bundle.meta_location bundle) with
          | Some _, _ => []
          | None, Some _ => [manifest]
          | None, None => [manifest; file]
          end
  /\ (exists b',
         lookup key (Package.bundle (package (fst run))) = Some b'
         /\ Bundle.version b' = version /\ Bundle.content b' = content)
  /\ Package.source (package (fst run)) = JSON_stringify code'.
Proof.
  intros Hb Hp Ha Hv. cbv zeta.
  destruct (done_memory env key version content w bundle code code' Hb Hp Ha)
    as ((b' & Hl & H1 & H2 & _) & Hs).
  split; [|split; [|split; [|split]]].
  - now rewrite (done_steps_unversioned env key version content w bundle
                   code code').
  - intros err.
    rewrite (done_steps_unversioned env key version content w bundle
               code code') by assumption.
    discriminate.
  - rewrite (done_steps_unversioned env key version content w bundle
               code code') by assumption.
    cbv zeta. unfold write_files.
    destruct (writeFileSync env (Package.location (package w)));
      [|destruct (writeFileSync env (Bundle.meta_location bundle))];
      simpl; rewrite <- ?app_assoc, ?app_nil_r; reflexivity.
  - exists b'. auto.
  - exact Hs.
Qed.

Lemma done_unversioned_never_reports_witness :
  writeFileSync widgets_unwritable (str "/p/package.json") = None
  /\ writeFileSync widgets_unwritable (str "/p/w.js")
     = Some (new_Error (str "EACCES"))
  /\ let run := done widgets_unwritable (str "w") (VString (str "2")) None
                  (Some (str "new")) widgets_unversioned in
     snd run = Uncaught (type_error "Cannot read property 'grey' of undefined")
     /\ (forall err, snd run <> Called err)
     /\ trace (fst run)
        = [Wrote (str "/p/package.json")
             (Stringified
                (JObject [(str "bundle",
                           JObject [(str "w", entry_doc "2")])]))]
     /\ (exists b',
            lookup (str "w") (Package.bundle (package (fst run))) = Some b'
            /\ Bundle.version b' = VString (str "2")
            /\ Bundle.content b' = Some (str "new"))
     /\ Package.source (package (fst run))
        = Stringified
            (JObject [(str "bundle", JObject [(str "w", entry_doc "2")])]).
Proof.
  split; [reflexivity|]. split; [reflexivity|].
  apply (done_unversioned_never_reports widgets_unwritable (str "w")
           (VString (str "2")) (Some (str "new")) widgets_unversioned
           {| Bundle.version := VUndefined;
              Bundle.latest :=
                Some (str "https://github.com/acme/widgets/blob/main/src/a.js");
              Bundle.download := false;
              Bundle.content := Some (str "old");
              Bundle.meta_location := str "/p/w.js" |}
           (JObject [(str "bundle", JObject [(str "w", JObject [])])])
           (JObject [(str "bundle", JObject [(str "w", entry_doc "2")])]));
    reflexivity.
Defined.

Lemma execute_without_path (env : collaborators) (fn : callback)
    (w : world) :
  Package.path (package w) = None -> execute env fn w = (w, Returned).
Proof. intros H. unfold execute. now rewrite H. Qed.

(** *** Nothing is ever given to [logger.error] *)

Lemma no_new_error_refl (w : world) : no_new_error w w.
Proof. intros err H. exact H. Qed.

Lemma no_new_error_trans (w1 w2 w3 : world) :
  no_new_error w1 w2 -> no_new_error w2 w3 -> no_new_error w1 w3.
Proof. intros H1 H2 err H. auto. Qed.

Lemma no_new_error_same_trace (w w' : world) :
  trace w' = trace w -> no_new_error w w'.
Proof. intros E err H. now rewrite <- E. Qed.

Lemma no_new_error_Notice (w : world) (f k : jsstring) (args : list value) :
  no_new_error w (emit (Notice f k args) w).
Proof.
  intros err H. simpl in H. apply in_app_or in H as [H|[H|[]]];
    [assumption|discriminate].
Qed.

Lemma no_new_error_Wrote (w : world) (file : jsstring) (data : text) :
  no_new_error w (emit (Wrote file data) w).
Proof.
  intros err H. simpl in H. apply in_app_or in H as [H|[H|[]]];
    [assumption|discriminate].
Qed.

Lemma no_new_error_write_files (env : collaborators) (manifest file : jsstring)
    (source : text) (content : option jsstring) (w : world) :
  no_new_error w (fst (write_files env manifest source file content w)).
Proof.
  unfold write_files.
  destruct (writeFileSync env manifest); [apply no_new_error_refl|].
  destruct (writeFileSync env file); simpl.
  - apply no_new_error_Wrote.
  - eapply no_new_error_trans; apply no_new_error_Wrote.
Qed.

Lemma no_new_error_done (env : collaborators) (key : jsstring)
    (version : value) (err : option error) (content : option jsstring)
    (w : world) :
  no_new_error w (fst (done env key version err content w)).
Proof.
  unfold done, cb, uncaught_task.
  destruct err; [apply no_new_error_refl|].
  destruct (lookup key _) as [bundle|] eqn:Hb; [|apply no_new_error_refl].
  destruct (JSON_parse _); [|apply no_new_error_refl].
  destruct (assign_version _ _ _); [|apply no_new_error_refl].
  match goal with
  | |- context [write_files ?e ?m ?s ?f ?c ?w0] =>
      pose proof (no_new_error_write_files e m f s c w0) as Hw;
      destruct (write_files e m s f c w0) as [w4 err']
  end.
  simpl in Hw.
  assert (H4 : no_new_error w w4).
  { eapply no_new_error_trans; [|exact Hw].
    apply no_new_error_same_trace. unfold update_bundle, with_package. simpl.
    reflexivity. }
  destruct (Bundle.version bundle); simpl; try exact H4;
    (eapply no_new_error_trans; [exact H4|apply no_new_error_Notice]).
Qed.

Lemma no_new_error_download (env : collaborators) (uri : jsstring)
    (fn : option error -> option jsstring -> task) (w : world) :
  (forall err content w0, no_new_error w0 (fst (fn err content w0))) ->
  no_new_error w (fst (download uncaught_task env uri fn w)).
Proof.
  intros H. unfold download, uncaught_task.
  destruct (request_get env uri) as [e|statusCode [b|]]; auto;
    destruct (negb _); auto; apply no_new_error_refl.
Qed.

Lemma no_new_error_test (env : collaborators) (key : jsstring) (p : provider)
    (err : option error) (version : value) (content : option jsstring)
    (w : world) :
  no_new_error w (fst (test env key p err version content w)).
Proof.
  unfold test, cb, uncaught_task.
  destruct err; [apply no_new_error_refl|].
  destruct (negb (truthy version)); [apply no_new_error_refl|].
  destruct (lookup key _) as [bundle|]; [|apply no_new_error_refl].
  destruct (strict_equal _ _); [apply no_new_error_refl|].
  eapply no_new_error_trans; [apply no_new_error_Notice|].
  destruct content as [[|a content]|].
  2: apply no_new_error_done.
  all: destruct (Bundle.download bundle || provider_eqb p Github);
    [destruct (raw _); [|apply no_new_error_refl]|];
    apply no_new_error_download; intros; apply no_new_error_done.
Qed.

Lemma no_new_error_testing (env : collaborators) (key : jsstring) (w : world) :
  no_new_error w (fst (testing env key w)).
Proof.
  unfold testing, cb, throw_task.
  destruct (lookup key _) as [bundle|]; [|apply no_new_error_refl].
  destruct (Bundle.latest bundle) as [[|a latest]|];
    try apply no_new_error_refl.
  set (uri := a :: latest). set (p := find_provider uri).
  pose proof (no_new_error_test env key p) as Ht.
  destruct p; unfold call_provider, selector, github, req, idle_task,
    throw_task.
  - destruct (canihaz_cheerio env); [apply Ht|apply no_new_error_refl].
  - destruct (exec githubRE uri); [|apply no_new_error_refl].
    destruct (cap _ 3); [|apply no_new_error_refl].
    destruct (canihaz_github env); [apply Ht|].
    destruct (getCommits env _) as [e|[|commit list]]; apply Ht.
  - apply no_new_error_refl.
Qed.

Lemma no_new_error_finished (err : option error) (w w' : world) :
  finished err w = Ok w' -> w' = w.
Proof.
  unfold finished. destruct err as [[name msg|[|item items]]|]; congruence.
Qed.

Lemma no_new_error_forEach (env : collaborators) (total : nat)
    (arr : list jsstring) :
  forall completed live w,
    no_new_error w (fst (forEach_from env total arr completed live w)).
Proof.
  induction arr as [|key arr IH]; intros completed live w;
    [apply no_new_error_refl|].
  cbn [forEach_from].
  pose proof (no_new_error_testing env key w) as Ht.
  destruct (testing env key w) as [w' [[err|]| | |]]; cbn [fst] in Ht;
    cbv beta iota; try exact Ht.
  - destruct live.
    + destruct (finished (Some err) w') as [w''|e] eqn:F; [|exact Ht].
      apply no_new_error_finished in F as ->.
      eapply no_new_error_trans; [exact Ht|apply IH].
    + eapply no_new_error_trans; [exact Ht|apply IH].
  - destruct (live && _).
    + destruct (finished None w') as [w''|e] eqn:F; [|exact Ht].
      apply no_new_error_finished in F as ->.
      eapply no_new_error_trans; [exact Ht|apply IH].
    + eapply no_new_error_trans; [exact Ht|apply IH].
  - eapply no_new_error_trans; [exact Ht|apply IH].
Qed.

(** Whatever the manifest and whatever the collaborators do, a run
    gives nothing to [logger.error]. *)
Lemma execute_never_logs_an_error (env : collaborators) (fn : callback)
    (w : world) :
  no_new_error w (fst (execute env fn w)).
Proof.
  unfold execute.
  destruct (Package.path (package w)) as [[|a path]|];
    try apply no_new_error_refl.
  unfold async_forEach.
  destruct (keys (Package.bundle (package w))) as [|key arr] eqn:K.
  - simpl. apply no_new_error_refl.
  - apply no_new_error_forEach.
Qed.

(** A bundle with a plain address makes the run throw: the line scanner
    is called without a receiver. *)
Example execute_plain_address_throws :
  execute (serving twelve_lines) no_completion one_plain_bundle
  = (one_plain_bundle,
     Threw (type_error "Cannot read property 'lines' of undefined")).
Proof. vm_compute. reflexivity. Qed.

(** C2 at the failing input: of two bundles the first has no commits
    and fails, the second is out of date.  The second is still updated
    and written, and the run returns; but the error of the first is
    passed to [cb] and then appears nowhere: the run logs no error. *)
Theorem execute_error_not_logged (fn : callback) :
  let env := a_has_no_commits None in
  let run := execute env fn two_bundles in
  testing env (str "a") two_bundles
  = (two_bundles,
     Called (Some (new_Error
       (str "No commits in this repo: https://github.com/acme/a/blob/main/a.js"))))
  /\ snd run = Returned
  /\ In (Wrote (str "/p/b.js") (Chars (str "new"))) (trace (fst run))
  /\ (forall err, ~ In (LoggedError err) (trace (fst run))).
Proof.
  repeat split; try (vm_compute; reflexivity).
  - vm_compute. tauto.
  - intros err H.
    apply (execute_never_logs_an_error (a_has_no_commits None) fn
             two_bundles) in H.
    exact H.
Qed.

(** * Further properties *)

(** ** The lines of [req] *)

Lemma m_Alt (R : Type) (r1 r2 : regex) (s : jsstring) (c : caps)
    (k : cont R) :
  m (Alt r1 r2) s c k
  = match m r1 s c k with Some x => Some x | None => m r2 s c k end.
Proof. reflexivity. Qed.

Lemma match_here_not_eol (a : N) (s : jsstring) :
  is_eol a = false -> match_here line_separator (a :: s) = None.
Proof.
  unfold is_eol. intros H. apply orb_false_iff in H as [H1 H2].
  apply N.eqb_neq in H1. apply N.eqb_neq in H2.
  unfold match_here, line_separator.
  rewrite !m_Alt, m_Group, m_Seq, !m_Chr_other by congruence. reflexivity.
Qed.

Lemma match_here_LF (s : jsstring) :
  match_here line_separator (10 :: s) = Some ([None], s).
Proof.
  unfold match_here, line_separator.
  rewrite !m_Alt, m_Group, m_Seq, !m_Chr_other by discriminate.
  rewrite m_Chr. reflexivity.
Qed.

Lemma match_here_CRLF (s : jsstring) :
  match_here line_separator (13 :: 10 :: s) = Some ([Some CRLF], s).
Proof.
  unfold match_here, line_separator.
  rewrite !m_Alt, m_Group, m_Seq, !m_Chr, consumed_cons2. reflexivity.
Qed.

Lemma match_here_CR (s : jsstring) :
  stops (N.eqb 10) s -> match_here line_separator (13 :: s) = Some ([None], s).
Proof.
  intros H. unfold match_here, line_separator.
  rewrite !m_Alt, m_Group, m_Seq, !m_Chr.
  unfold Chr at 1. rewrite m_Cls_stops by assumption. reflexivity.
Qed.

Lemma length_cons_sub (a : N) (s : jsstring) :
  (length (a :: s) - length s = 1)%nat.
Proof. change (length (a :: s)) with (S (length s)). lia. Qed.

Lemma length_cons2_sub (a b : N) (s : jsstring) :
  (length (a :: b :: s) - length s = 2)%nat.
Proof. change (length (a :: b :: s)) with (S (S (length s))). lia. Qed.

(** A stretch without separators goes to the piece being read. *)
Lemma split_from_plain (l s cur : jsstring) :
  none_in is_eol l ->
  split_from line_separator 0 cur (l ++ s)
  = split_from line_separator 0 (rev l ++ cur) s.
Proof.
  revert cur. induction l as [|a l IH]; intros cur H; [reflexivity|].
  inversion H as [|? ? Ha Hl]; subst.
  simpl app. cbn [split_from]. rewrite match_here_not_eol by assumption.
  rewrite IH by assumption. simpl rev. now rewrite <- app_assoc.
Qed.

(** A separator ends the piece and leaves its capture behind. *)
Lemma split_from_separator (sep s cur : jsstring) :
  sep = LF \/ sep = CRLF \/ (sep = CR /\ stops (N.eqb 10) s) ->
  split_from line_separator 0 cur (sep ++ s)
  = Some (rev cur) :: separator_capture sep
      :: split_from line_separator 0 [] s.
Proof.
  intros [->|[->|[-> H]]]; simpl app; cbn [split_from].
  - rewrite match_here_LF, length_cons_sub. reflexivity.
  - rewrite match_here_CRLF, length_cons2_sub. reflexivity.
  - rewrite match_here_CR, length_cons_sub by assumption. reflexivity.
Qed.

Lemma join_cons2 (sep l l2 : jsstring) (ls : list jsstring) :
  join sep (l :: l2 :: ls) = l ++ sep ++ join sep (l2 :: ls).
Proof. reflexivity. Qed.

Lemma join_CR_stops (l : jsstring) (ls : list jsstring) :
  none_in is_eol l -> stops (N.eqb 10) (join CR (l :: ls)).
Proof.
  intros H. destruct l as [|a l].
  - destruct ls; [exact I|reflexivity].
  - inversion H as [|? ? Ha _]; subst.
    assert (Hs : (10 =? a) = false).
    { unfold is_eol in Ha. apply orb_false_iff in Ha as [_ Ha].
      now rewrite N.eqb_sym. }
    destruct ls; exact Hs.
Qed.

Lemma split_from_lines (sep : jsstring) (ls : list jsstring) :
  sep = LF \/ sep = CR \/ sep = CRLF ->
  forall l cur,
    Forall (none_in is_eol) (l :: ls) ->
    split_from line_separator 0 cur (join sep (l :: ls))
    = interleave (separator_capture sep) ((rev cur ++ l) :: ls).
Proof.
  intros Hsep. induction ls as [|l2 ls IH]; intros l cur H;
    inversion H as [|? ? Hl Hls]; subst.
  - simpl join. rewrite <- (app_nil_r l) at 1.
    rewrite split_from_plain by assumption. simpl.
    now rewrite rev_app_distr, rev_involutive.
  - rewrite join_cons2, split_from_plain by assumption.
    rewrite split_from_separator.
    + rewrite (IH l2 []) by assumption.
      rewrite rev_app_distr, rev_involutive. reflexivity.
    + destruct Hsep as [->|[->| ->]]; auto.
      right. right. split; [reflexivity|].
      apply join_CR_stops. now inversion Hls.
Qed.

Lemma split_is_split_from (s : jsstring) :
  split line_separator s = split_from line_separator 0 [] s.
Proof. unfold split. now destruct s. Qed.

(** X1.  The array that [req] scans: for lines without [\r] and [\n], joined
    by one of the three separators, [split] gives every line followed by
    an entry for the separator after it: [undefined] after [\n] or [\r],
    the separator itself after [\r\n]. *)
Theorem split_lines (sep l : jsstring) (ls : list jsstring) :
  sep = LF \/ sep = CR \/ sep = CRLF ->
  Forall (none_in is_eol) (l :: ls) ->
  split line_separator (join sep (l :: ls))
  = interleave (separator_capture sep) (l :: ls).
Proof.
  intros Hsep H. rewrite split_is_split_from. now apply split_from_lines.
Qed.

Lemma split_lines_witness :
  split line_separator (join CRLF [str "a"; str ""; str "b"])
  = [Some (str "a"); Some CRLF; Some []; Some CRLF; Some (str "b")].
Proof.
  apply (split_lines CRLF (str "a") [str ""; str "b"]);
    [right; right; reflexivity|repeat constructor].
Defined.

Lemma nth_error_interleave (x : option jsstring) (ls : list jsstring) (i : nat) :
  nth_error (interleave x ls) (2 * i) = option_map Some (nth_error ls i).
Proof.
  revert i. induction ls as [|l ls IH]; intros i.
  - now destruct i.
  - destruct i as [|i].
    + now destruct ls.
    + replace (2 * S i)%nat with (S (S (2 * i))) by lia.
      destruct ls as [|l2 ls]; [now destruct i|].
      change (interleave x (l :: l2 :: ls))
        with (Some l :: x :: interleave x (l2 :: ls)).
      simpl nth_error. apply IH.
Qed.

(** X2.  The window of [req]: the first [n] entries of that array hold the
    line number [i] (from 0), at entry [2 i], exactly when [2 i < n]; [n]
    entries cover half as many lines. *)
Theorem req_window (sep l : jsstring) (ls : list jsstring) (n : Z) (i : nat) :
  sep = LF \/ sep = CR \/ sep = CRLF ->
  Forall (none_in is_eol) (l :: ls) ->
  nth_error (splice0 n (split line_separator (join sep (l :: ls)))) (2 * i)
  = if (2 * i <? Z.to_nat n)%nat
    then option_map Some (nth_error (l :: ls) i)
    else None.
Proof.
  intros Hsep H. unfold splice0.
  rewrite nth_error_firstn, split_is_split_from, split_from_lines
    by assumption.
  destruct (2 * i <? Z.to_nat n)%nat; [|reflexivity].
  apply nth_error_interleave.
Qed.

Lemma req_window_witness :
  nth_error (splice0 10 (split line_separator twelve_lines)) (2 * 4)
  = Some (Some (str "x"))
  /\ nth_error (splice0 10 (split line_separator twelve_lines)) (2 * 5) = None.
Proof.
  split.
  - apply (req_window LF (str "x")
             (repeat (str "x") 10 ++ [str "v1.2.3"]) 10 4);
      [now left|repeat constructor].
  - apply (req_window LF (str "x")
             (repeat (str "x") 10 ++ [str "v1.2.3"]) 10 5);
      [now left|repeat constructor].
Defined.

(** X3.  What [req] passes to [fn] as the version is never a string: it is
    [undefined], with an error, or the function [version] itself, when
    the window is empty. *)
Theorem req_never_resolves (env : collaborators) (this : option Update)
    (uri : jsstring) :
  match observe_req env this uri with
  | Fetched err v content =>
      (v = VUndefined /\ err <> None) \/ (v = VVersionFunction /\ err = None)
  | _ => True
  end.
Proof.
  unfold observe_req, req, download.
  destruct this as [self|]; [|exact I].
  destruct (request_get env uri) as [e|statusCode [[|a text]|]];
    try (left; split; [reflexivity|discriminate]);
    destruct (negb _); try exact I;
    try (left; split; [reflexivity|discriminate]).
  unfold split, splice0.
  destruct (firstn _ _) as [|line rest]; [|exact I].
  right. split; reflexivity.
Qed.

(** X4.  With a receiver and a non-empty download, [req] ends in one of two
    ways, neither with a version: for [lines >= 1] the scan throws on
    its first entry; for [lines <= 0] nothing is scanned and [fn] gets
    the function [version] in place of a version. *)
Theorem req_outcome (env : collaborators) (self : Update)
    (uri text : jsstring) :
  request_get env uri = Response 200 (Some text) -> text <> [] ->
  observe_req env (Some self) uri
  = if (1 <=? lines self)%Z
    then SawUncaught (type_error "Cannot read property 'strict' of undefined")
    else Fetched None VVersionFunction (Some text).
Proof.
  intros E Hne. destruct (Z.leb_spec 1 (lines self)) as [H|H].
  - now apply req_throws_on_first_line with (text := text).
  - unfold observe_req, req, download. rewrite E. simpl.
    destruct text as [|a text]; [congruence|].
    unfold splice0. replace (Z.to_nat (lines self)) with 0%nat by lia.
    reflexivity.
Qed.

Lemma req_outcome_witness :
  observe_req (serving (str "v1.2.3"))
    (Some {| strict := semver; loose := sillyver; lines := 0 |})
    (str "http://x/y.js")
  = Fetched None VVersionFunction (Some (str "v1.2.3")).
Proof.
  apply (req_outcome (serving (str "v1.2.3"))
           {| strict := semver; loose := sillyver; lines := 0 |}
           (str "http://x/y.js") (str "v1.2.3"));
    [reflexivity|discriminate].
Defined.

(** ** More on [version] *)

Lemma sillyver_numbers_stops (R : Type) (s : jsstring) (c : caps) (k : cont R) :
  stops is_digit s -> m sillyver_numbers s c k = None.
Proof.
  intros H. unfold sillyver_numbers.
  rewrite m_Seq, m_Group. now apply m_Cls_stops.
Qed.

Lemma none_in_stops (p : N -> bool) (s : jsstring) : none_in p s -> stops p s.
Proof. intros H. destruct s; [exact I|now inversion H]. Qed.

(** Neither pattern matches anywhere in a text without digits. *)
Lemma exec_without_digits (numbers : regex) (s : jsstring) :
  (forall t c k, stops is_digit t ->
                 m (R := caps * jsstring) numbers t c k = None) ->
  none_in is_digit s -> exec (version_prefix numbers) s = None.
Proof.
  intros Hn H.
  assert (Hhere : forall t, none_in is_digit t ->
                            match_here (version_prefix numbers) t = None).
  { intros t Ht.
    destruct (match_here (version_prefix numbers) t) as [[c s']|] eqn:E;
      [|reflexivity].
    apply version_prefix_sound in E as (w & s3 & -> & _ & E).
    apply Forall_app in Ht as [_ Ht].
    rewrite Hn in E by now apply none_in_stops. discriminate. }
  induction s as [|a s IH]; simpl.
  - now rewrite Hhere.
  - rewrite Hhere by assumption. apply IH. now inversion H.
Qed.

(** X5.  A text without any digit has no version: [version] gives
    [undefined]. *)
Theorem version_without_digits (text : jsstring) :
  none_in is_digit text ->
  version (Some new_Update) (Some text) = Ok None.
Proof.
  intros H.
  assert (E1 : exec semver text = None).
  { apply exec_without_digits; [|assumption].
    intros. now apply semver_numbers_stops. }
  assert (E2 : exec sillyver text = None).
  { apply exec_without_digits; [|assumption].
    intros. now apply sillyver_numbers_stops. }
  unfold version. simpl. unfold version_some. now rewrite E1, E2.
Qed.

Lemma version_without_digits_witness :
  version (Some new_Update) (Some (str "/*! no version here */")) = Ok None.
Proof. apply version_without_digits. repeat constructor. Defined.

(** The leftmost match of the strict pattern in a text whose first
    digit starts [X.Y.Z]. *)
Lemma exec_semver_first_digits (pre X Y Z post : jsstring) :
  none_in is_digit pre ->
  X <> [] -> Y <> [] -> Z <> [] ->
  all_in is_digit X -> all_in is_digit Y -> all_in is_digit Z ->
  stops is_digit post ->
  exists c,
    exec semver (pre ++ X ++ str "." ++ Y ++ str "." ++ Z ++ post) = Some c
    /\ cap c 1 = Some X /\ cap c 2 = Some Y /\ cap c 3 = Some Z.
Proof.
  intros Hpre HX HY HZ DX DY DZ Hpost.
  set (rest := X ++ str "." ++ Y ++ str "." ++ Z ++ post).
  destruct (semver_numbers_match X Y Z post (repeat None 5)
              HX HY HZ DX DY DZ Hpost eq_refl)
    as (c & s' & E & C1 & C2 & C3).
  fold rest in E.
  assert (SX : starts is_digit rest).
  { unfold rest. destruct X as [|a X]; [congruence|]. now inversion DX. }
  clearbody rest.
  assert (Hhere : forall q, none_in is_digit q ->
            forall c0 s0, match_here semver (q ++ rest) = Some (c0, s0) ->
            c0 = c).
  { intros q Hq c0 s0 H. unfold match_here, semver in H.
    apply version_prefix_sound in H as (w & s3 & Es & Hw & H).
    destruct (stops_or_starts is_digit s3) as [S3|S3].
    - rewrite semver_numbers_stops in H by assumption. discriminate.
    - destruct (first_in_unique is_digit w q s3 rest Hw Hq S3 SX) as [-> ->];
        [now symmetry|].
      change (ngroups (version_prefix semver_numbers)) with 5%nat in H.
      congruence. }
  assert (H0 : match_here semver rest = Some (c, s')).
  { unfold match_here, semver, version_prefix.
    change (ngroups _) with 5%nat.
    rewrite m_Seq.
    apply m_Star_greedy with (w := []);
      [constructor|eapply starts_stops; [exact digit_not_space|exact SX]|].
    rewrite m_Seq.
    apply m_Star_greedy with (w := []);
      [constructor|eapply starts_stops; [exact digit_not_v_or_eq|exact SX]|].
    rewrite m_Seq.
    apply m_Star_greedy with (w := []);
      [constructor|eapply starts_stops; [exact digit_not_space|exact SX]|].
    exact E. }
  exists c. split; [|auto].
  induction pre as [|a pre IH].
  - exact (exec_here _ _ _ _ H0).
  - inversion Hpre as [|? ? Ha Hpre']; subst.
    destruct (match_here semver ((a :: pre) ++ rest)) as [[c0 s0]|] eqn:E0.
    + rewrite (exec_here _ _ _ _ E0). f_equal.
      now apply (Hhere (a :: pre)) with (s0 := s0).
    + simpl app in *. rewrite exec_next by assumption. now apply IH.
Qed.

(** What [version] makes of a match of the strict pattern that
    captured three runs of digits. *)
Lemma version_of_strict_match (text X Y Z : jsstring) (c : caps) :
  exec semver text = Some c ->
  cap c 1 = Some X -> cap c 2 = Some Y -> cap c 3 = Some Z ->
  X <> [] -> Y <> [] -> Z <> [] ->
  all_in is_digit X -> all_in is_digit Y -> all_in is_digit Z ->
  version (Some new_Update) (Some text)
  = Ok (Some (X ++ str "." ++ Y ++ str "." ++ Z)).
Proof.
  intros E C1 C2 C3 HX HY HZ DX DY DZ.
  unfold version. simpl to_string. simpl strict. simpl loose. do 2 f_equal.
  destruct X as [|x X]; [congruence|].
  apply version_loop_first with (mt := c); [exact E|].
  rewrite (component_digits _ _ _ C1), (component_digits _ _ _ C2),
    (component_digits _ _ _ C3) by assumption.
  reflexivity.
Qed.

(** X6.  The [v] is not needed: a text whose first digit starts [X.Y.Z],
    with no digit right after [Z], gives [X.Y.Z], whatever stands
    before. *)
Theorem version_first_digits (pre X Y Z post : jsstring) :
  none_in is_digit pre ->
  X <> [] -> Y <> [] -> Z <> [] ->
  all_in is_digit X -> all_in is_digit Y -> all_in is_digit Z ->
  stops is_digit post ->
  version (Some new_Update)
    (Some (pre ++ X ++ str "." ++ Y ++ str "." ++ Z ++ post))
  = Ok (Some (X ++ str "." ++ Y ++ str "." ++ Z)).
Proof.
  intros Hpre HX HY HZ DX DY DZ Hpost.
  destruct (exec_semver_first_digits pre X Y Z post Hpre HX HY HZ DX DY DZ Hpost)
    as (c & E & C1 & C2 & C3).
  now apply version_of_strict_match with (c := c).
Qed.

Lemma version_first_digits_witness :
  version (Some new_Update)
    (Some (str " * @version " ++ str "10" ++ str "." ++ str "0" ++ str "."
           ++ str "12" ++ str "-beta"))
  = Ok (Some (str "10" ++ str "." ++ str "0" ++ str "." ++ str "12")).
Proof.
  apply version_first_digits;
    solve [repeat constructor | discriminate | reflexivity].
Defined.

(** What a match of the strict pattern captures: three runs of digits. *)
Lemma steps_semver_numbers (s s' : jsstring) (c : caps) :
  steps semver_numbers s (repeat None 5) s' c ->
  exists X Y Z,
    X <> [] /\ Y <> [] /\ Z <> []
    /\ all_in is_digit X /\ all_in is_digit Y /\ all_in is_digit Z
    /\ cap c 1 = Some X /\ cap c 2 = Some Y /\ cap c 3 = Some Z.
Proof.
  unfold semver_numbers, Plus, Chr. intros H.
  inv_steps.
  rewrite ?consumed_cons_app in *. simpl set_cap in *.
  match goal with
  | H : steps semver_tail _ [Some ?X; Some ?Y; Some ?Z; _; _] _ _ |- _ =>
      exists X, Y, Z;
      pose proof (steps_frame _ _ _ _ _ 1 H) as F1;
      pose proof (steps_frame _ _ _ _ _ 2 H) as F2;
      pose proof (steps_frame _ _ _ _ _ 3 H) as F3
  end.
  simpl in F1, F2, F3.
  rewrite F1, F2, F3 by lia.
  repeat split; try discriminate; try (constructor; assumption).
Qed.

Lemma exec_semver_shape (text : jsstring) (c : caps) :
  exec semver text = Some c ->
  exists X Y Z,
    X <> [] /\ Y <> [] /\ Z <> []
    /\ all_in is_digit X /\ all_in is_digit Y /\ all_in is_digit Z
    /\ cap c 1 = Some X /\ cap c 2 = Some Y /\ cap c 3 = Some Z.
Proof.
  intros E.
  apply exec_some in E as (t & s' & H).
  unfold match_here, semver in H.
  apply version_prefix_sound in H as (w & s3 & _ & _ & H).
  apply m_sound in H as (s4 & c4 & H & F). injection F as -> ->.
  now apply steps_semver_numbers in H.
Qed.

(** X7.  Whenever the strict pattern matches, [version] gives three
    non-empty runs of digits joined by dots. *)
Theorem version_strict_shape (text : jsstring) (c : caps) :
  exec semver text = Some c ->
  exists X Y Z,
    X <> [] /\ Y <> [] /\ Z <> []
    /\ all_in is_digit X /\ all_in is_digit Y /\ all_in is_digit Z
    /\ version (Some new_Update) (Some text)
       = Ok (Some (X ++ str "." ++ Y ++ str "." ++ Z)).
Proof.
  intros E.
  destruct (exec_semver_shape text c E)
    as (X & Y & Z & HX & HY & HZ & DX & DY & DZ & C1 & C2 & C3).
  exists X, Y, Z. repeat split; try assumption.
  now apply version_of_strict_match with (c := c).
Qed.

Lemma version_strict_shape_witness :
  exists X Y Z,
    X <> [] /\ Y <> [] /\ Z <> []
    /\ all_in is_digit X /\ all_in is_digit Y /\ all_in is_digit Z
    /\ version (Some new_Update) (Some (str "jquery=1.7.2rc1"))
       = Ok (Some (X ++ str "." ++ Y ++ str "." ++ Z)).
Proof.
  apply (version_strict_shape (str "jquery=1.7.2rc1")
           [Some (str "1"); Some (str "7"); Some (str "2"); None;
            Some (str "rc1")]).
  reflexivity.
Defined.

(** X8.  A version that the strict pattern produced is a fixed point of
    [version]: extracting from it gives it back. *)
Theorem version_strict_idempotent (text result : jsstring) :
  exec semver text <> None ->
  version (Some new_Update) (Some text) = Ok (Some result) ->
  version (Some new_Update) (Some result) = Ok (Some result).
Proof.
  intros Hs Hv.
  destruct (exec semver text) as [c|] eqn:E; [|congruence].
  destruct (exec_semver_shape text c E)
    as (X & Y & Z & HX & HY & HZ & DX & DY & DZ & C1 & C2 & C3).
  rewrite (version_of_strict_match text X Y Z c) in Hv by assumption.
  injection Hv as <-.
  destruct (exec_semver_first_digits [] X Y Z [] (Forall_nil _)
              HX HY HZ DX DY DZ I) as (c' & E' & C1' & C2' & C3').
  simpl app in E'. rewrite !app_nil_r in E'.
  now apply version_of_strict_match with (c := c').
Qed.

Lemma version_strict_idempotent_witness :
  version (Some new_Update) (Some (str "1.7.2")) = Ok (Some (str "1.7.2")).
Proof.
  apply (version_strict_idempotent (str "jquery=1.7.2rc1") (str "1.7.2"));
    [discriminate|reflexivity].
Defined.

(** ** More on [raw] and [github] *)

Ltac inv_steps_lit :=
  repeat match goal with
         | H : steps Eps _ _ _ _ |- _ => inv H
         | H : steps (Seq _ _) _ _ _ _ |- _ => inv H
         | H : steps (Group _ _) _ _ _ _ |- _ => inv H
         | H : steps (Cls _) _ _ _ _ |- _ => inv H
         | H : steps (Star (Cls _)) _ _ _ _ |- _ =>
             apply steps_Star_Cls in H as [-> (? & -> & ?)]
         end.

Lemma consumed_cons2_app (a b : N) (w t : jsstring) :
  consumed (a :: b :: w ++ t) t = a :: b :: w.
Proof. exact (consumed_app (a :: b :: w) t). Qed.

(** What a match of [githubRE] captures: all four groups take part, the
    third starts with the slash. *)
Lemma exec_githubRE_shape (uri : jsstring) (c : caps) :
  exec githubRE uri = Some c ->
  exists owner repo branch file,
    c = [Some owner; Some repo; Some (str "/" ++ branch); Some file].
Proof.
  intros E. apply exec_some in E as (t & s' & H).
  unfold match_here in H.
  apply m_sound in H as (s4 & c4 & H & F). injection F as -> ->.
  unfold githubRE, Plus, Chr, Dot in H. simpl Lit in H. unfold Chr in H.
  inv_steps_lit.
  rewrite ?consumed_cons_app, ?consumed_cons2_app, ?consumed_app.
  repeat match goal with
         | H : (_ =? _) = true |- _ => apply N.eqb_eq in H; subst
         end.
  simpl. eauto.
Qed.

Lemma find_provider_order_of_test (uri : jsstring) :
  find_provider uri =
  if RegExp.test githubRE uri then Github
  else if contains_char 35 uri then Selector
  else Req.
Proof.
  unfold find_provider.
  destruct (RegExp.test githubRE uri), (contains_char 35 uri); reflexivity.
Qed.

(** X9.  [raw] and the choice of the handler agree: [raw] gives an address,
    and one on [raw.github.com], exactly for the descriptors that go to
    the commit lookup; for every other one it throws. *)
Theorem raw_defined_on_github (uri : jsstring) :
  (find_provider uri = Github
   /\ exists rest, raw uri = Ok (str "https://raw.github.com/" ++ rest))
  \/ (find_provider uri <> Github
      /\ raw uri = Throw (type_error "Cannot read property '1' of null")).
Proof.
  rewrite find_provider_order_of_test. unfold raw, RegExp.test.
  destruct (exec githubRE uri) as [c|] eqn:E.
  - left. split; [reflexivity|].
    apply exec_githubRE_shape in E as (owner & repo & branch & file & ->).
    simpl. eexists. reflexivity.
  - right. split; [|reflexivity].
    destruct (contains_char 35 uri); discriminate.
Qed.

(** X10.  The commit lookup on a blob address: the request names owner,
    repository, file and branch as the address gives them, and [fn]
    gets the first commit as the version, without content; an empty
    list of commits or an error of the API is an error for [fn]. *)
Theorem github_blob_lookup (A : Type) (throw : error -> A)
    (env : collaborators) (fn : fetched A)
    (pre owner repository branch file : jsstring) :
  none_in (N.eqb 103) pre ->
  owner <> [] -> repository <> [] -> branch <> [] ->
  all_in is_github_name owner -> all_in is_github_name repository ->
  all_in is_github_name branch -> none_in is_line_terminator file ->
  canihaz_github env = None ->
  let uri := pre ++ str "github.com/" ++ owner ++ str "/" ++ repository
             ++ str "/blob/" ++ branch ++ str "/" ++ file in
  github throw env uri fn
  = match getCommits env {| user := owner; repo := repository;
                            path := file; sha := branch |} with
    | inl err => fn (Some err) VUndefined None
    | inr [] =>
        fn (Some (new_Error (str "No commits in this repo: " ++ uri)))
           VUndefined None
    | inr (commit :: _) => fn None (VString commit) None
    end.
Proof.
  intros Hpre Ho Hr Hb Do Dr Db Df Hc uri. unfold github, uri.
  rewrite exec_githubRE_blob by assumption. simpl. rewrite Hc.
  reflexivity.
Qed.


Lemma github_blob_lookup_witness :
  github SawThrow widgets_at_2 acme_blob Fetched
  = Fetched None (VString (str "2")) None.
Proof.
  apply (github_blob_lookup seen SawThrow widgets_at_2 Fetched
           (str "https://") (str "acme") (str "widgets") (str "main")
           (str "src/a.js"));
    solve [repeat constructor | discriminate].
Defined.

(** ** What a run keeps and what it adds *)

Lemma files_of_shape (p p' : Package.t) :
  shape p = shape p' -> files_of p = files_of p'.
Proof.
  unfold shape, files_of. intros H. injection H as _ Hl Hb. rewrite Hl.
  f_equal.
  assert (E : forall l, map (fun kb => Bundle.meta_location (snd kb)) l
                        = map (fun t => snd (snd t)) (map entry_shape l)).
  { intros l. rewrite map_map. reflexivity. }
  now rewrite !E, Hb.
Qed.

Lemma expected_event_files (p p' : Package.t) (e : event) :
  files_of p = files_of p' -> expected_event p e -> expected_event p' e.
Proof. intros H. unfold expected_event. destruct e; auto. now rewrite H. Qed.

Lemma continues_refl (w : world) : continues w w.
Proof.
  split; [reflexivity|]. exists []. split; [now rewrite app_nil_r|constructor].
Qed.

Lemma continues_trans (w1 w2 w3 : world) :
  continues w1 w2 -> continues w2 w3 -> continues w1 w3.
Proof.
  intros [S1 (e1 & T1 & F1)] [S2 (e2 & T2 & F2)].
  split; [congruence|]. exists (e1 ++ e2). split.
  - now rewrite T2, T1, app_assoc.
  - apply Forall_app. split; [assumption|].
    eapply Forall_impl; [|exact F2]. intros e.
    apply expected_event_files. now apply files_of_shape.
Qed.

Lemma continues_emit (w : world) (e : event) :
  expected_event (package w) e -> continues w (emit e w).
Proof.
  intros H. split; [reflexivity|]. exists [e]. split; [reflexivity|].
  now constructor.
Qed.

Lemma map_assign_same (T U : Type) (g : jsstring * T -> U) (key : jsstring)
    (v b : T) (obj : list (jsstring * T)) :
  lookup key obj = Some b -> (forall k, g (k, v) = g (k, b)) ->
  map g (assign key v obj) = map g obj.
Proof.
  intros H Hg. induction obj as [|[k x] obj IH]; [discriminate|].
  simpl in *. destruct (jsstring_eqb k key).
  - injection H as ->. simpl. now rewrite Hg.
  - simpl. now rewrite IH.
Qed.

Lemma continues_update_bundle (key : jsstring) (f : Bundle.t -> Bundle.t)
    (w : world) :
  (forall b, Bundle.latest (f b) = Bundle.latest b
             /\ Bundle.download (f b) = Bundle.download b
             /\ Bundle.meta_location (f b) = Bundle.meta_location b) ->
  continues w (update_bundle key f w).
Proof.
  intros Hf. split.
  - unfold update_bundle, with_package, shape. simpl.
    destruct (lookup key (Package.bundle (package w))) as [b|] eqn:E;
      [|reflexivity].
    simpl. f_equal. apply map_assign_same with (b := b); [assumption|].
    intros k. unfold entry_shape. simpl.
    destruct (Hf b) as (-> & -> & ->). reflexivity.
  - exists []. split; [simpl; now rewrite app_nil_r|constructor].
Qed.

Lemma continues_set_source (source : text) (w : world) :
  continues w (with_package (Package.set_source source) w).
Proof.
  split; [reflexivity|]. exists [].
  split; [simpl; now rewrite app_nil_r|constructor].
Qed.

Lemma lookup_In (T : Type) (key : jsstring) (v : T)
    (obj : list (jsstring * T)) :
  lookup key obj = Some v -> In (key, v) obj.
Proof.
  induction obj as [|[k x] obj IH]; [discriminate|]. simpl.
  destruct (jsstring_eqb k key) eqn:E.
  - intros H. injection H as ->. apply jsstring_eqb_eq in E as ->. now left.
  - intros H. right. now apply IH.
Qed.

Lemma continues_write_files (env : collaborators) (source : text)
    (file : jsstring) (content : option jsstring) (w : world) :
  In file (files_of (package w)) ->
  continues w
    (fst (write_files env (Package.location (package w)) source file content w)).
Proof.
  intros Hf. unfold write_files.
  destruct (writeFileSync env (Package.location (package w)));
    [apply continues_refl|].
  assert (H1 : continues w (emit (Wrote (Package.location (package w)) source) w)).
  { apply continues_emit. simpl. now left. }
  destruct (writeFileSync env file); simpl; [exact H1|].
  eapply continues_trans; [exact H1|].
  apply continues_emit. exact Hf.
Qed.

Lemma continues_done (env : collaborators) (key : jsstring) (version : value)
    (err : option error) (content : option jsstring) (w : world) :
  continues w (fst (done env key version err content w)).
Proof.
  unfold done, cb, uncaught_task.
  destruct err; [apply continues_refl|].
  destruct (lookup key _) as [bundle|] eqn:Hb; [|apply continues_refl].
  destruct (JSON_parse _); [|apply continues_refl].
  destruct (assign_version _ _ _) as [code'|]; [|apply continues_refl].
  set (w1 := update_bundle key (Bundle.set_version version) w).
  set (w2 := update_bundle key (Bundle.set_content content) w1).
  set (w3 := with_package (Package.set_source (JSON_stringify code')) w2).
  assert (H3 : continues w w3).
  { eapply continues_trans; [|apply continues_set_source].
    eapply continues_trans; apply continues_update_bundle; intros b;
      repeat split. }
  assert (Hf : In (Bundle.meta_location bundle) (files_of (package w3))).
  { rewrite (files_of_shape (package w3) (package w)) by apply H3.
    right. apply lookup_In in Hb.
    apply (in_map (fun kb => Bundle.meta_location (snd kb))) in Hb.
    exact Hb. }
  pose proof (continues_write_files env (JSON_stringify code')
                (Bundle.meta_location bundle) content w3 Hf) as H4.
  destruct (write_files env _ _ _ _ w3) as [w4 err'].
  simpl in H4.
  assert (H : continues w w4) by (eapply continues_trans; eassumption).
  destruct (Bundle.version bundle); simpl; try exact H;
    (eapply continues_trans; [exact H|apply continues_emit; exact I]).
Qed.

Lemma continues_download (env : collaborators) (uri : jsstring)
    (fn : option error -> option jsstring -> task) (w : world) :
  (forall err content w0, continues w0 (fst (fn err content w0))) ->
  continues w (fst (download uncaught_task env uri fn w)).
Proof.
  intros H. unfold download, uncaught_task.
  destruct (request_get env uri) as [e|statusCode [b|]]; auto;
    destruct (negb _); auto; apply continues_refl.
Qed.

Lemma continues_test (env : collaborators) (key : jsstring) (p : provider)
    (err : option error) (version : value) (content : option jsstring)
    (w : world) :
  continues w (fst (test env key p err version content w)).
Proof.
  unfold test, cb, uncaught_task.
  destruct err; [apply continues_refl|].
  destruct (negb (truthy version)); [apply continues_refl|].
  destruct (lookup key _) as [bundle|]; [|apply continues_refl].
  destruct (strict_equal _ _); [apply continues_refl|].
  set (w1 := emit _ w).
  apply continues_trans with (w2 := w1); [apply continues_emit; exact I|].
  destruct content as [[|a content]|].
  2: apply continues_done.
  all: destruct (Bundle.download bundle || provider_eqb p Github);
    [destruct (raw _); [|apply continues_refl]|];
    apply continues_download; intros; apply continues_done.
Qed.

Lemma continues_testing (env : collaborators) (key : jsstring) (w : world) :
  continues w (fst (testing env key w)).
Proof.
  unfold testing, cb, throw_task.
  destruct (lookup key _) as [bundle|]; [|apply continues_refl].
  destruct (Bundle.latest bundle) as [[|a latest]|];
    try apply continues_refl.
  set (uri := a :: latest). set (p := find_provider uri).
  pose proof (continues_test env key p) as Ht.
  destruct p; unfold call_provider, selector, github, req, idle_task,
    throw_task.
  - destruct (canihaz_cheerio env); [apply Ht|apply continues_refl].
  - destruct (exec githubRE uri); [|apply continues_refl].
    destruct (cap _ 3); [|apply continues_refl].
    destruct (canihaz_github env); [apply Ht|].
    destruct (getCommits env _) as [e|[|commit list]]; apply Ht.
  - apply continues_refl.
Qed.

Lemma finished_Ok (err : option error) (w w' : world) :
  finished err w = Ok w' -> w' = w.
Proof.
  unfold finished. destruct err as [[name msg|[|item items]]|]; congruence.
Qed.

Lemma continues_forEach (env : collaborators) (total : nat)
    (arr : list jsstring) :
  forall completed live w,
    continues w (fst (forEach_from env total arr completed live w)).
Proof.
  induction arr as [|key arr IH]; intros completed live w;
    [apply continues_refl|].
  cbn [forEach_from].
  pose proof (continues_testing env key w) as Ht.
  destruct (testing env key w) as [w' [[err|]| | |]]; cbn [fst] in Ht;
    cbv beta iota; try exact Ht.
  - destruct live.
    + destruct (finished (Some err) w') as [w''|e] eqn:F; [|exact Ht].
      apply finished_Ok in F as ->.
      eapply continues_trans; [exact Ht|apply IH].
    + eapply continues_trans; [exact Ht|apply IH].
  - destruct (live && _).
    + destruct (finished None w') as [w''|e] eqn:F; [|exact Ht].
      apply finished_Ok in F as ->.
      eapply continues_trans; [exact Ht|apply IH].
    + eapply continues_trans; [exact Ht|apply IH].
  - eapply continues_trans; [exact Ht|apply IH].
Qed.

Lemma continues_execute (env : collaborators) (fn : callback) (w : world) :
  continues w (fst (execute env fn w)).
Proof.
  unfold execute.
  destruct (Package.path (package w)) as [[|a path]|];
    try apply continues_refl.
  unfold async_forEach.
  destruct (keys (Package.bundle (package w))) as [|key arr] eqn:K.
  - simpl. apply continues_refl.
  - apply continues_forEach.
Qed.

(** C10: [execute] never calls [fn].  Whatever the callback would do
    when called, the run is the same on every path: without a path in
    the package, after the last key, and on every error.  And a callback
    that would report to [logger.error] when called reports nothing:
    no record of it is among the events that the run adds. *)
Theorem execute_never_calls_fn (env : collaborators) (fn gn : callback)
    (w : world) :
  execute env fn w = execute env gn w
  /\ execute env marking_completion w = execute env no_completion w
  /\ exists events,
       trace (fst (execute env marking_completion w)) = trace w ++ events
       /\ ~ In (LoggedError completed) events.
Proof.
  split; [reflexivity|]. split; [reflexivity|].
  destruct (continues_execute env marking_completion w)
    as [_ (events & T & H)].
  exists events. split; [exact T|].
  intros Hin. rewrite Forall_forall in H. exact (H _ Hin).
Qed.

(** X11.  A run never creates, deletes, renames or reorders an entry, and
    leaves alone the path and the location of the manifest and the
    [latest], [download] and [meta.location] of every entry: all it may
    change is the version and content of entries and the source. *)
Theorem execute_keeps_shape (env : collaborators) (fn : callback)
    (w : world) :
  shape (package (fst (execute env fn w))) = shape (package w)
  /\ keys (Package.bundle (package (fst (execute env fn w))))
     = keys (Package.bundle (package w)).
Proof.
  destruct (continues_execute env fn w) as [S _]. split; [exact S|].
  unfold shape in S. injection S as _ _ S.
  apply (f_equal (map fst)) in S. rewrite !map_map in S. exact S.
Qed.

(** X12.  A run only adds to the log and to the disk: what was there stays,
    and nothing is given to [logger.error]. *)
Theorem execute_adds_no_error (env : collaborators) (fn : callback)
    (w : world) :
  exists events,
    trace (fst (execute env fn w)) = trace w ++ events
    /\ Forall (fun e => forall err, e <> LoggedError err) events.
Proof.
  destruct (continues_execute env fn w) as [_ (events & T & H)].
  exists events. split; [exact T|].
  eapply Forall_impl; [|exact H].
  intros e He err ->. exact He.
Qed.

(** X13.  The only files a run writes are the manifest, at its location, and
    the files of the entries, at their [meta.location]. *)
Theorem execute_writes_own_files (env : collaborators) (fn : callback)
    (w : world) :
  exists events,
    trace (fst (execute env fn w)) = trace w ++ events
    /\ Forall (fun e => match e with
                        | Wrote file _ => In file (files_of (package w))
                        | _ => True
                        end) events.
Proof.
  destruct (continues_execute env fn w) as [_ (events & T & H)].
  exists events. split; [exact T|].
  eapply Forall_impl; [|exact H].
  intros [f k args|err|file data]; simpl; auto.
Qed.

(** ** Runs that change nothing, and runs that throw *)

Lemma testing_off_github (env : collaborators) (key : jsstring) (w : world) :
  (forall b, lookup key (Package.bundle (package w)) = Some b ->
             not_on_github b) ->
  fst (testing env key w) = w.
Proof.
  intros H. unfold testing, cb, throw_task.
  destruct (lookup key _) as [bundle|] eqn:Hb; [|reflexivity].
  specialize (H bundle eq_refl). unfold not_on_github in H.
  destruct (Bundle.latest bundle) as [[|a latest]|]; try reflexivity.
  rewrite find_provider_order_of_test, (H (a :: latest) eq_refl).
  destruct (contains_char 35 (a :: latest)); [|reflexivity].
  unfold call_provider, selector, idle_task, test, cb.
  destruct (canihaz_cheerio env); reflexivity.
Qed.

Lemma forEach_off_github (env : collaborators) (total : nat)
    (arr : list jsstring) (w : world) :
  (forall key b, lookup key (Package.bundle (package w)) = Some b ->
                 not_on_github b) ->
  forall completed live,
    fst (forEach_from env total arr completed live w) = w.
Proof.
  intros H. induction arr as [|key arr IH]; intros completed live;
    [reflexivity|].
  cbn [forEach_from].
  pose proof (testing_off_github env key w (H key)) as Ht.
  destruct (testing env key w) as [w' [[err|]| | |]]; cbn [fst] in Ht;
    subst w'; cbv beta iota; try reflexivity.
  - destruct live; [|apply IH].
    destruct (finished (Some err) w) as [w''|e] eqn:F; [|reflexivity].
    apply finished_Ok in F as ->. apply IH.
  - destruct (live && _); [|apply IH].
    destruct (finished None w) as [w''|e] eqn:F; [|reflexivity].
    apply finished_Ok in F as ->. apply IH.
  - apply IH.
Qed.

(** X14.  Only descriptors of the GitHub blob shape can lead to an update: on
    a manifest without any, a run changes nothing, in memory or on
    disk, and logs nothing, whatever the collaborators do. *)
Theorem execute_off_github (env : collaborators) (fn : callback)
    (w : world) :
  Forall (fun kb => not_on_github (snd kb)) (Package.bundle (package w)) ->
  fst (execute env fn w) = w.
Proof.
  intros H. unfold execute.
  destruct (Package.path (package w)) as [[|a path]|]; try reflexivity.
  unfold async_forEach.
  destruct (keys (Package.bundle (package w))) as [|key arr] eqn:K;
    [reflexivity|].
  apply forEach_off_github. intros k b Hb.
  apply lookup_In in Hb. rewrite Forall_forall in H. exact (H _ Hb).
Qed.

Lemma execute_off_github_witness :
  fst (execute (serving twelve_lines) no_completion one_plain_bundle)
  = one_plain_bundle.
Proof.
  apply execute_off_github. repeat constructor.
  intros latest H. injection H as <-. reflexivity.
Defined.

Lemma lookup_skipped (T : Type) (P : T -> Prop) (l1 l2 : list (jsstring * T))
    (k : jsstring) :
  Forall (fun kb => P (snd kb)) l1 -> In k (keys l1) ->
  exists v, lookup k (l1 ++ l2) = Some v /\ P v.
Proof.
  intros H. induction l1 as [|[k1 v1] l1 IH]; intros Hk; [contradiction|].
  inversion H as [|? ? Hv Hl]; subst. simpl in *.
  destruct (jsstring_eqb k1 k) eqn:E; [now exists v1|].
  destruct Hk as [->|Hk]; [now rewrite jsstring_eqb_refl in E|].
  now apply IH.
Qed.

Lemma lookup_after_skipped (T : Type) (l1 l2 : list (jsstring * T))
    (key : jsstring) (v : T) :
  ~ In key (keys l1) -> lookup key (l1 ++ (key, v) :: l2) = Some v.
Proof.
  induction l1 as [|[k1 v1] l1 IH]; intros H; simpl in *.
  - now rewrite jsstring_eqb_refl.
  - destruct (jsstring_eqb k1 key) eqn:E.
    + apply jsstring_eqb_eq in E. tauto.
    + apply IH. tauto.
Qed.

Lemma forEach_throws_at (env : collaborators) (total : nat) (key : jsstring)
    (later : list jsstring) (w : world) (e : error) :
  testing env key w = (w, Thrown e) ->
  forall ks,
    (forall k, In k ks -> testing env k w = (w, Called None)) ->
    forall completed live,
      forEach_from env total (ks ++ key :: later) completed live w
      = (w, Threw e).
Proof.
  intros Hkey. induction ks as [|k ks IH]; intros Hks completed live.
  - simpl app. cbn [forEach_from]. now rewrite Hkey.
  - simpl app. cbn [forEach_from]. rewrite (Hks k) by now left.
    assert (Hrest : forall k', In k' ks -> testing env k' w = (w, Called None))
      by (intros; apply Hks; now right).
    destruct (live && _); [|now apply IH].
    change (finished None w) with (Ok w). now apply IH.
Qed.

(** X15.  A run throws as soon as it comes to an entry with a plain address
    (not of the blob shape, no [#]): when the entries before it have no
    [latest], [execute] throws a [TypeError], has changed nothing, and
    the entries after it are never looked at. *)
Theorem execute_throws_at_plain_address (env : collaborators)
    (fn : callback) (w : world) (skipped later : list (jsstring * Bundle.t))
    (key : jsstring) (b : Bundle.t) (latest path : jsstring) :
  Package.bundle (package w) = skipped ++ (key, b) :: later ->
  Forall (fun kb => no_latest (snd kb)) skipped ->
  ~ In key (keys skipped) ->
  Bundle.latest b = Some latest -> latest <> [] ->
  RegExp.test githubRE latest = false -> contains_char 35 latest = false ->
  Package.path (package w) = Some path -> path <> [] ->
  execute env fn w
  = (w, Threw (type_error "Cannot read property 'lines' of undefined")).
Proof.
  intros Hb Hs Hk Hl Hne Hg Hh Hp Hpne. unfold execute. rewrite Hp.
  destruct path as [|c path]; [congruence|].
  rewrite Hb. unfold keys. rewrite map_app. simpl map.
  unfold async_forEach.
  destruct (map fst skipped ++ key :: map fst later) as [|k0 arr] eqn:E;
    [now destruct (map fst skipped)|].
  rewrite <- E. apply forEach_throws_at.
  - unfold testing. rewrite Hb, lookup_after_skipped by assumption.
    rewrite Hl. destruct latest as [|a latest]; [congruence|].
    rewrite find_provider_order_of_test, Hg, Hh. reflexivity.
  - intros k Hin. unfold testing. rewrite Hb.
    destruct (lookup_skipped _ no_latest skipped ((key, b) :: later) k Hs Hin)
      as (v & -> & [Hv|Hv]); now rewrite Hv.
Qed.

Lemma execute_throws_at_plain_address_witness :
  execute (serving twelve_lines) no_completion one_plain_bundle
  = (one_plain_bundle,
     Threw (type_error "Cannot read property 'lines' of undefined")).
Proof.
  apply (execute_throws_at_plain_address (serving twelve_lines)
           no_completion one_plain_bundle [] []
           (str "j") (entry "1" "http://code.example.com/j.js" "/p/j.js")
           (str "http://code.example.com/j.js") (str "/p"));
    try reflexivity; try discriminate; try constructor.
  intros [].
Defined.

(** ** The manifest document *)

Lemma lookup_assign_other (T : Type) (k key : jsstring) (v : T)
    (obj : list (jsstring * T)) :
  k <> key -> lookup k (assign key v obj) = lookup k obj.
Proof.
  intros H. induction obj as [|[k1 x] obj IH]; simpl.
  - destruct (jsstring_eqb key k) eqn:E; [|reflexivity].
    apply jsstring_eqb_eq in E. congruence.
  - destruct (jsstring_eqb k1 key) eqn:E; simpl.
    + apply jsstring_eqb_eq in E as ->.
      destruct (jsstring_eqb key k) eqn:E'; [|reflexivity].
      apply jsstring_eqb_eq in E'. congruence.
    + now rewrite IH.
Qed.

Lemma keys_assign (T : Type) (key : jsstring) (v b : T)
    (obj : list (jsstring * T)) :
  lookup key obj = Some b -> keys (assign key v obj) = keys obj.
Proof.
  intros H. unfold keys. now apply map_assign_same with (b := b).
Qed.

(** X16.  Recording a version in the manifest document: when the document
    has the entry, the entry reads the new version afterwards, every
    other member of the entry, every other entry and every other member
    of the document reads as before, and no entry is added or moved. *)
Theorem assign_version_recorded (members bundles entry : list (jsstring * json))
    (key s : jsstring) :
  lookup (str "bundle") members = Some (JObject bundles) ->
  lookup key bundles = Some (JObject entry) ->
  exists members' bundles' entry',
    assign_version (JObject members) key (VString s) = Ok (JObject members')
    /\ lookup (str "bundle") members' = Some (JObject bundles')
    /\ lookup key bundles' = Some (JObject entry')
    /\ lookup (str "version") entry' = Some (JString s)
    /\ (forall k, k <> str "version" -> lookup k entry' = lookup k entry)
    /\ (forall k, k <> key -> lookup k bundles' = lookup k bundles)
    /\ (forall k, k <> str "bundle" -> lookup k members' = lookup k members)
    /\ keys bundles' = keys bundles.
Proof.
  intros Hm Hb. unfold assign_version. rewrite Hm, Hb.
  eexists _, _, _. split; [reflexivity|].
  rewrite !lookup_assign_same.
  split; [reflexivity|]. split; [reflexivity|]. split; [reflexivity|].
  split; [intros k Hk; now apply lookup_assign_other|].
  split; [intros k Hk; now apply lookup_assign_other|].
  split; [intros k Hk; now apply lookup_assign_other|].
  now apply keys_assign with (b := JObject entry).
Qed.

Lemma assign_version_recorded_witness :
  exists members' bundles' entry',
    assign_version
      (JObject [(str "bundle", JObject [(str "a", entry_doc "1");
                                        (str "b", entry_doc "1")])])
      (str "b") (VString (str "2"))
    = Ok (JObject members')
    /\ lookup (str "bundle") members' = Some (JObject bundles')
    /\ lookup (str "b") bundles' = Some (JObject entry')
    /\ lookup (str "version") entry' = Some (JString (str "2"))
    /\ (forall k, k <> str "version" ->
                  lookup k entry' = lookup k [(str "version", JString (str "1"))])
    /\ (forall k, k <> str "b" ->
                  lookup k bundles'
                  = lookup k [(str "a", entry_doc "1"); (str "b", entry_doc "1")])
    /\ (forall k, k <> str "bundle" ->
                  lookup k members'
                  = lookup k [(str "bundle",
                               JObject [(str "a", entry_doc "1");
                                        (str "b", entry_doc "1")])])
    /\ keys bundles' = keys [(str "a", entry_doc "1"); (str "b", entry_doc "1")].
Proof.
  apply (assign_version_recorded
           [(str "bundle", JObject [(str "a", entry_doc "1");
                                    (str "b", entry_doc "1")])]
           [(str "a", entry_doc "1"); (str "b", entry_doc "1")]
           [(str "version", JString (str "1"))]
           (str "b") (str "2")); reflexivity.
Defined.

(** ** [done], step by step *)

(** [done] once the document is parsed and the version recorded in it. *)
Lemma done_steps (env : collaborators) (key : jsstring) (version : value)
    (content : option jsstring) (w : world) (bundle : Bundle.t)
    (code code' : json) :
  lookup key (Package.bundle (package w)) = Some bundle ->
  JSON_parse (Package.source (package w)) = Ok code ->
  assign_version code key version = Ok code' ->
  Bundle.version bundle <> VUndefined ->
  done env key version None content w
  = let w3 :=
      with_package (Package.set_source (JSON_stringify code'))
        (update_bundle key (Bundle.set_content content)
           (update_bundle key (Bundle.set_version version) w)) in
    let run := write_files env (Package.location (package w))
                 (JSON_stringify code') (Bundle.meta_location bundle)
                 content w3 in
    (emit (Notice (str "sucessfully updated %s from version %s to %s") key
             [Bundle.version bundle; version]) (fst run),
     Called (snd run)).
Proof.
  intros Hb Hp Ha Hv. unfold done. rewrite Hb, Hp, Ha. cbv zeta.
  change (Package.location
            (package
               (with_package (Package.set_source (JSON_stringify code'))
                  (update_bundle key (Bundle.set_content content)
                     (update_bundle key (Bundle.set_version version) w)))))
    with (Package.location
            (package (update_bundle key (Bundle.set_content content)
                        (update_bundle key (Bundle.set_version version) w)))).
  assert (L : forall f w0, Package.location (package (update_bundle key f w0))
                           = Package.location (package w0)).
  { intros f w0. unfold update_bundle, with_package. cbn [package].
    destruct (lookup key (Package.bundle (package w0))); reflexivity. }
  rewrite !L.
  destruct (write_files _ _ _ _ _ _) as [w4 err'].
  destruct (Bundle.version bundle); [congruence|reflexivity|reflexivity].
Qed.

(** X17.  [done] for an entry of the package whose key the parsed
    manifest has: the manifest is written first, then the file of the
    entry, and a write that throws stops the writing.  When the entry
    has a recorded version, the exception goes to [cb] and the notice of
    success is logged after the writes in every case, also when nothing
    was written.  When the entry has no recorded version, the same
    writes are made, no notice is logged and [cb] is not called: reading
    [current.grey] throws. *)
Theorem done_trace (env : collaborators) (key : jsstring) (version : value)
    (content : option jsstring) (w : world) (bundle : Bundle.t)
    (code code' : json) :
  lookup key (Package.bundle (package w)) = Some bundle ->
  JSON_parse (Package.source (package w)) = Ok code ->
  assign_version code key version = Ok code' ->
  let manifest := Wrote (Package.location (package w)) (JSON_stringify code') in
  let file := Wrote (Bundle.meta_location bundle) (Chars (to_string content)) in
  let notice := Notice (str "sucessfully updated %s from version %s to %s") key
                  [Bundle.version bundle; version] in
  let grey := type_error "Cannot read property 'grey' of undefined" in
  let run := done env key version None content w in
  match Bundle.version bundle with
  | VUndefined =>
      match writeFileSync env (Package.location (package w)),
            writeFileSync env (Bundle.meta_location bundle) with
      | Some e, _ => snd run = Uncaught grey /\ trace (fst run) = trace w
      | None, Some e =>
          snd run = Uncaught grey /\ trace (fst run) = trace w ++ [manifest]
      | None, None =>
          snd run = Uncaught grey
          /\ trace (fst run) = trace w ++ [manifest; file]
      end
  | _ =>
      match writeFileSync env (Package.location (package w)),
            writeFileSync env (Bundle.meta_location bundle) with
      | Some e, _ =>
          snd run = Called (Some e) /\ trace (fst run) = trace w ++ [notice]
      | None, Some e =>
          snd run = Called (Some e)
          /\ trace (fst run) = trace w ++ [manifest; notice]
      | None, None =>
          snd run = Called None
          /\ trace (fst run) = trace w ++ [manifest; file; notice]
      end
  end.
Proof.
  intros Hb Hp Ha. cbv zeta.
  assert (T : forall f w0, trace (update_bundle key f w0) = trace w0)
    by reflexivity.
  destruct (Bundle.version bundle) as [|v|] eqn:Hv.
  - rewrite (done_steps_unversioned env key version content w bundle
               code code') by assumption.
    cbv zeta. unfold write_files.
    destruct (writeFileSync env (Package.location (package w)));
      [|destruct (writeFileSync env (Bundle.meta_location bundle))];
      simpl; rewrite <- ?app_assoc; auto.
  - rewrite (done_steps env key version content w bundle code code')
      by (try assumption; congruence).
    cbv zeta. unfold write_files. rewrite Hv.
    destruct (writeFileSync env (Package.location (package w)));
      [|destruct (writeFileSync env (Bundle.meta_location bundle))];
      simpl; rewrite <- ?app_assoc; auto.
  - rewrite (done_steps env key version content w bundle code code')
      by (try assumption; congruence).
    cbv zeta. unfold write_files. rewrite Hv.
    destruct (writeFileSync env (Package.location (package w)));
      [|destruct (writeFileSync env (Bundle.meta_location bundle))];
      simpl; rewrite <- ?app_assoc; auto.
Qed.

Lemma done_trace_witness :
  (let run := done (a_has_no_commits (Some (str "/p/b.js"))) (str "b")
                (VString (str "2")) None (Some (str "new")) two_bundles in
   snd run = Called (Some (new_Error (str "EACCES")))
   /\ trace (fst run)
      = trace two_bundles
        ++ [Wrote (str "/p/package.json")
              (JSON_stringify
                 (JObject [(str "bundle",
                            JObject [(str "a", entry_doc "1");
                                     (str "b", entry_doc "2")])]));
            Notice (str "sucessfully updated %s from version %s to %s")
              (str "b") [VString (str "1"); VString (str "2")]])
  /\ (let run := done widgets_at_2 (str "w") (VString (str "2")) None
                   (Some (str "new")) widgets_unversioned in
      snd run
      = Uncaught (type_error "Cannot read property 'grey' of undefined")
      /\ trace (fst run)
         = trace widgets_unversioned
           ++ [Wrote (str "/p/package.json")
                 (JSON_stringify
                    (JObject [(str "bundle",
                               JObject [(str "w", entry_doc "2")])]));
               Wrote (str "/p/w.js") (Chars (str "new"))]).
Proof.
  split.
  - apply (done_trace (a_has_no_commits (Some (str "/p/b.js"))) (str "b")
             (VString (str "2")) (Some (str "new")) two_bundles
             (entry "1" "https://github.com/acme/b/blob/main/b.js" "/p/b.js")
             (JObject [(str "bundle",
                        JObject [(str "a", entry_doc "1");
                                 (str "b", entry_doc "1")])])
             (JObject [(str "bundle",
                        JObject [(str "a", entry_doc "1");
                                 (str "b", entry_doc "2")])]));
      reflexivity.
  - apply (done_trace widgets_at_2 (str "w") (VString (str "2"))
             (Some (str "new")) widgets_unversioned
             {| Bundle.version := VUndefined;
                Bundle.latest :=
                  Some (str "https://github.com/acme/widgets/blob/main/src/a.js");
                Bundle.download := false;
                Bundle.content := Some (str "old");
                Bundle.meta_location := str "/p/w.js" |}
             (JObject [(str "bundle", JObject [(str "w", JObject [])])])
             (JObject [(str "bundle", JObject [(str "w", entry_doc "2")])]));
      reflexivity.
Defined.



(** ** An update, from the descriptor to the disk *)

(** X19.  The task of an entry on GitHub whose newest commit is not the
    recorded version.  Given: the entry has a recorded version; its
    descriptor is a blob address with nothing but [github.com] starting
    with [g], with owner, repository and branch made of name characters
    and a file path on one line; the GitHub client loads and answers
    with a list of commits whose first is not empty and is not the
    recorded version; the raw address of the descriptor answers 200 with
    a body; the source of the package parses and has the entry; and both
    writes succeed.  Then the commit becomes the version, the body
    (whatever it is, the empty string too) becomes the content, the
    manifest and then the file are written between the two notices,
    [cb] is called without an error, and in memory the entry has the
    commit as version and the body as content and is otherwise as it
    was, and the package has the new source. *)
Theorem testing_updates_from_raw (env : collaborators) (key : jsstring)
    (w : world) (bundle : Bundle.t)
    (pre owner repository branch file commit body : jsstring)
    (others : list jsstring) (code code' : json) :
  none_in (N.eqb 103) pre ->
  owner <> [] -> repository <> [] -> branch <> [] ->
  all_in is_github_name owner -> all_in is_github_name repository ->
  all_in is_github_name branch -> none_in is_line_terminator file ->
  lookup key (Package.bundle (package w)) = Some bundle ->
  Bundle.latest bundle
  = Some (pre ++ str "github.com/" ++ owner ++ str "/" ++ repository
          ++ str "/blob/" ++ branch ++ str "/" ++ file) ->
  canihaz_github env = None ->
  getCommits env {| user := owner; repo := repository; path := file;
                    sha := branch |} = inr (commit :: others) ->
  commit <> [] ->
  Bundle.version bundle <> VString commit ->
  Bundle.version bundle <> VUndefined ->
  request_get env (str "https://raw.github.com/" ++ owner ++ str "/"
                   ++ repository ++ str "/" ++ branch ++ str "/" ++ file)
  = Response 200 (Some body) ->
  JSON_parse (Package.source (package w)) = Ok code ->
  assign_version code key (VString commit) = Ok code' ->
  writeFileSync env (Package.location (package w)) = None ->
  writeFileSync env (Bundle.meta_location bundle) = None ->
  let run := testing env key w in
  snd run = Called None
  /\ trace (fst run)
     = trace w
       ++ [Notice (str "%s is out of date, latest version is %s") key
             [VString commit];
           Wrote (Package.location (package w)) (JSON_stringify code');
           Wrote (Bundle.meta_location bundle) (Chars body);
           Notice (str "sucessfully updated %s from version %s to %s") key
             [Bundle.version bundle; VString commit]]
  /\ (exists b',
         lookup key (Package.bundle (package (fst run))) = Some b'
         /\ Bundle.version b' = VString commit
         /\ Bundle.content b' = Some body
         /\ Bundle.latest b' = Bundle.latest bundle
         /\ Bundle.download b' = Bundle.download bundle
         /\ Bundle.meta_location b' = Bundle.meta_location bundle)
  /\ Package.source (package (fst run)) = JSON_stringify code'.
Proof.
  intros Hpre Ho Hr Hbr Do Dr Db Df Hb Hl Hc Hg Hne Hv Hu Hd Hp Ha Hw1 Hw2.
  pose proof (exec_githubRE_blob pre owner repository branch file
                Hpre Ho Hr Hbr Do Dr Db Df) as E.
  remember (pre ++ str "github.com/" ++ owner ++ str "/" ++ repository
            ++ str "/blob/" ++ branch ++ str "/" ++ file) as uri eqn:Eu.
  clear Eu. cbv zeta. unfold testing. rewrite Hb, Hl.
  destruct uri as [|a uri]; [discriminate E|].
  rewrite find_provider_order_of_test. unfold RegExp.test. rewrite E.
  unfold call_provider, github. rewrite E.
  set (chunks := [Some owner; Some repository; Some (str "/" ++ branch);
                  Some file]) in *.
  change (cap chunks 1) with (Some owner).
  change (cap chunks 2) with (Some repository).
  change (cap chunks 3) with (Some (47 :: branch)).
  change (cap chunks 4) with (Some file).
  cbv iota beta.
  change (substr1 (47 :: branch)) with branch.
  change (to_string (Some owner)) with owner.
  change (to_string (Some repository)) with repository.
  change (to_string (Some file)) with file.
  rewrite Hc, Hg.
  unfold test. destruct commit as [|c0 commit]; [congruence|].
  simpl truthy. simpl negb. cbv iota. rewrite Hb.
  assert (Hs : strict_equal (VString (c0 :: commit)) (Bundle.version bundle)
               = false).
  { destruct (Bundle.version bundle) as [|s|]; try reflexivity. simpl.
    destruct (jsstring_eqb (c0 :: commit) s) eqn:Es; [|reflexivity].
    apply jsstring_eqb_eq in Es. congruence. }
  rewrite Hs. simpl provider_eqb. rewrite orb_true_r.
  rewrite Hl. unfold raw. change (to_string (Some (a :: uri))) with (a :: uri).
  rewrite E.
  change (cap chunks 1) with (Some owner).
  change (cap chunks 2) with (Some repository).
  change (cap chunks 3) with (Some (47 :: branch)).
  change (cap chunks 4) with (Some file).
  cbv iota beta.
  change (substr1 (47 :: branch)) with branch.
  change (to_string (Some owner)) with owner.
  change (to_string (Some repository)) with repository.
  change (to_string (Some file)) with file.
  unfold download. rewrite Hd.
  set (w1 := emit _ w).
  change (negb (200 =? 200)%Z) with false. cbv iota.
  rewrite (done_steps env key (VString (c0 :: commit)) (Some body) w1 bundle
             code code') by assumption.
  cbv zeta. unfold write_files.
  change (Package.location (package w1)) with (Package.location (package w)).
  rewrite Hw1, Hw2. unfold update_bundle, with_package. simpl.
  rewrite Hb. simpl. rewrite !lookup_assign_same. simpl.
  rewrite lookup_assign_same, <- !app_assoc.
  split; [reflexivity|]. split; [reflexivity|].
  split; [|reflexivity].
  eexists. split; [reflexivity|]. simpl. auto 6.
Qed.

Lemma testing_updates_from_raw_witness :
  let run := testing widgets_at_2 (str "w") widgets_bundle in
  snd run = Called None
  /\ trace (fst run)
     = [Notice (str "%s is out of date, latest version is %s") (str "w")
          [VString (str "2")];
        Wrote (str "/p/package.json")
          (Stringified
             (JObject [(str "bundle", JObject [(str "w", entry_doc "2")])]));
        Wrote (str "/p/w.js") (Chars (str "new"));
        Notice (str "sucessfully updated %s from version %s to %s") (str "w")
          [VString (str "1"); VString (str "2")]]
  /\ (exists b',
         lookup (str "w") (Package.bundle (package (fst run))) = Some b'
         /\ Bundle.version b' = VString (str "2")
         /\ Bundle.content b' = Some (str "new")
         /\ Bundle.latest b'
            = Some (str "https://github.com/acme/widgets/blob/main/src/a.js")
         /\ Bundle.download b' = false
         /\ Bundle.meta_location b' = str "/p/w.js")
  /\ Package.source (package (fst run))
     = Stringified
         (JObject [(str "bundle", JObject [(str "w", entry_doc "2")])]).
Proof.
  apply (testing_updates_from_raw widgets_at_2 (str "w") widgets_bundle
           (entry "1" "https://github.com/acme/widgets/blob/main/src/a.js"
              "/p/w.js")
           (str "https://") (str "acme") (str "widgets") (str "main")
           (str "src/a.js") (str "2") (str "new") []
           (JObject [(str "bundle", JObject [(str "w", entry_doc "1")])])
           (JObject [(str "bundle", JObject [(str "w", entry_doc "2")])]));
    solve [repeat constructor | discriminate | reflexivity].
Defined.

(** X20.  [done] for an entry of the package that has a recorded
    version and whose key the parsed manifest has: when one of the two
    writes throws, the exception is what [cb] receives, and in memory
    the entry has the new version and content and is otherwise as it
    was, and the package has the new source. *)
Theorem done_write_throws (env : collaborators) (key : jsstring)
    (version : value) (content : option jsstring) (w : world)
    (bundle : Bundle.t) (code code' : json) (e : error) :
  lookup key (Package.bundle (package w)) = Some bundle ->
  JSON_parse (Package.source (package w)) = Ok code ->
  assign_version code key version = Ok code' ->
  Bundle.version bundle <> VUndefined ->
  writeFileSync env (Package.location (package w)) = Some e
  \/ (writeFileSync env (Package.location (package w)) = None
      /\ writeFileSync env (Bundle.meta_location bundle) = Some e) ->
  let run := done env key version None content w in
  snd run = Called (Some e)
  /\ (exists b',
         lookup key (Package.bundle (package (fst run))) = Some b'
         /\ Bundle.version b' = version /\ Bundle.content b' = content
         /\ Bundle.latest b' = Bundle.latest bundle
         /\ Bundle.download b' = Bundle.download bundle
         /\ Bundle.meta_location b' = Bundle.meta_location bundle)
  /\ Package.source (package (fst run)) = JSON_stringify code'.
Proof.
  intros Hb Hp Ha Hv Hw. cbv zeta.
  split; [|exact (done_memory env key version content w bundle code code'
                    Hb Hp Ha)].
  rewrite (done_steps env key version content w bundle code code')
    by assumption.
  cbv zeta. unfold write_files.
  destruct Hw as [Hw|[Hw1 Hw2]].
  - rewrite Hw. reflexivity.
  - rewrite Hw1, Hw2. reflexivity.
Qed.

Lemma done_write_throws_witness :
  let env := a_has_no_commits (Some (str "/p/b.js")) in
  let run := done env (str "b") (VString (str "2")) None (Some (str "new"))
               two_bundles in
  snd run = Called (Some (new_Error (str "EACCES")))
  /\ (exists b',
         lookup (str "b") (Package.bundle (package (fst run))) = Some b'
         /\ Bundle.version b' = VString (str "2")
         /\ Bundle.content b' = Some (str "new")
         /\ Bundle.latest b'
            = Some (str "https://github.com/acme/b/blob/main/b.js")
         /\ Bundle.download b' = false
         /\ Bundle.meta_location b' = str "/p/b.js")
  /\ Package.source (package (fst run))
     = JSON_stringify
         (JObject [(str "bundle",
                    JObject [(str "a", entry_doc "1");
                             (str "b", entry_doc "2")])]).
Proof.
  apply (done_write_throws (a_has_no_commits (Some (str "/p/b.js"))) (str "b")
           (VString (str "2")) (Some (str "new")) two_bundles
           (entry "1" "https://github.com/acme/b/blob/main/b.js" "/p/b.js")
           (JObject [(str "bundle",
                      JObject [(str "a", entry_doc "1");
                               (str "b", entry_doc "1")])])
           (JObject [(str "bundle",
                      JObject [(str "a", entry_doc "1");
                               (str "b", entry_doc "2")])])
           (new_Error (str "EACCES")));
    try reflexivity; try discriminate.
  right. split; reflexivity.
Defined.
